(** * highext: extraction, classification and grouping of PDF highlights

    A shallow embedding of the Python sources [src/utils.py],
    [src/extractor.py], [src/xmind_exporter.py] and
    [src/notion_exporter.py], and the properties of the specification
    checked against it.

    Conventions of the embedding:
    - a Python [float] is a binary64 value, Rocq's primitive [float];
    - a Python [str] is a [string]; its characters are the code points
      below 256;
    - a Python [int] is a [Z];
    - a [dict] is an association list in insertion order (Python dicts
      iterate in insertion order, and the formatters depend on it);
    - a call that may raise returns an [exc]; [try]/[except Exception]
      is a [match] on it. *)

From Stdlib Require Import PrimFloat FloatOps FloatAxioms SpecFloat.
From Stdlib Require Import ZArith Lia Bool List String Ascii.
From Stdlib Require Import Sorted Permutation DecimalString DecimalPos DecimalZ.
Import ListNotations.

Set Warnings "-inexact-float,-register-all".

Local Open Scope string_scope.
Local Open Scope list_scope.

(** ** Exceptions *)

Inductive exn : Type :=
| TypeError
| IndexError
| ValueError (msg : string)
| OverflowError
| RuntimeError (msg : string)
| OSError
| CollaboratorError (msg : string).

Inductive exc (A : Type) : Type :=
| Ret (a : A)
| Raise (e : exn).

Arguments Ret {A} a.
Arguments Raise {A} e.

Definition bind {A B : Type} (m : exc A) (k : A -> exc B) : exc B :=
  match m with
  | Ret a => k a
  | Raise e => Raise e
  end.

Notation "x <- m ;; k" := (bind m (fun x => k))
  (at level 61, m at next level, right associativity).

Definition returns {A : Type} (m : exc A) : Prop := exists a, m = Ret a.

(** [[f(x) for x in xs]] where [f] may raise: the first failure aborts. *)
Fixpoint mapM {A B : Type} (f : A -> exc B) (xs : list A) : exc (list B) :=
  match xs with
  | [] => Ret []
  | x :: tl => y <- f x ;; ys <- mapM f tl ;; Ret (y :: ys)
  end.

(** ** Python built-ins on floats *)

Module Py.

Local Open Scope float_scope.

(** [max(a, b, ...)] keeps the first argument and replaces it by a later
    one only when [later > current]; [min] likewise with [<].  With a NaN
    every comparison is false. *)
Definition max2 (cur x : float) : float := if cur <? x then x else cur.
Definition min2 (cur x : float) : float := if x <? cur then x else cur.

Definition max3 (a b c : float) : float := max2 (max2 a b) c.
Definition min3 (a b c : float) : float := min2 (min2 a b) c.

(** [max(xs)] and [min(xs)] of a list; an empty list raises ValueError. *)
Definition max_list (xs : list float) : exc float :=
  match xs with
  | [] => Raise (ValueError "max() arg is an empty sequence")
  | x :: tl => Ret (fold_left max2 tl x)
  end.

Definition min_list (xs : list float) : exc float :=
  match xs with
  | [] => Raise (ValueError "min() arg is an empty sequence")
  | x :: tl => Ret (fold_left min2 tl x)
  end.

(** [x ** 2]: the rounded square; CPython raises OverflowError when a
    finite base overflows, and returns NaN and infinity unchanged. *)
Definition sqr (x : float) : exc float :=
  let y := x * x in
  if is_finite x && is_infinity y then Raise OverflowError else Ret y.

(** [int(x)]: truncation toward zero; NaN and the infinities raise. *)
Definition int (x : float) : exc Z :=
  match Prim2SF x with
  | S754_zero _ => Ret 0%Z
  | S754_nan => Raise (ValueError "cannot convert float NaN to integer")
  | S754_infinity _ => Raise OverflowError
  | S754_finite s m e =>
      let mag := match e with
                 | Zneg p => Z.shiftr (Zpos m) (Zpos p)
                 | _ => Z.shiftl (Zpos m) e
                 end in
      Ret (if s then Z.opp mag else mag)
  end.

End Py.

(** ** Python built-ins on strings *)

Module PyStr.

(** [str.isspace] on one character, for the code points below 256:
    TAB..CR, FS..US, space, NEL and NBSP. *)
Definition isspace (c : ascii) : bool :=
  let n := nat_of_ascii c in
  ((9 <=? n) && (n <=? 13) || (28 <=? n) && (n <=? 32)
   || (n =? 133) || (n =? 160))%nat.

Fixpoint lstrip (s : string) : string :=
  match s with
  | EmptyString => EmptyString
  | String c tl => if isspace c then lstrip tl else s
  end.

(** [rstrip] removes the trailing run of whitespace. *)
Fixpoint rstrip (s : string) : string :=
  match s with
  | EmptyString => EmptyString
  | String c tl =>
      match rstrip tl with
      | EmptyString => if isspace c then EmptyString else String c EmptyString
      | r => String c r
      end
  end.

Definition strip (s : string) : string := rstrip (lstrip s).

(** Truth value of a string: non-empty. *)
Definition truthy (s : string) : bool :=
  match s with EmptyString => false | _ => true end.

(** [sep.join(parts)] *)
Definition join (sep : string) (parts : list string) : string :=
  String.concat sep parts.

(** [str(n)] for an int. *)
Definition of_int (n : Z) : string := NilZero.string_of_int (Z.to_int n).

Definition hex_digit (n : Z) : ascii :=
  match String.get (Z.to_nat n) "0123456789ABCDEF" with
  | Some c => c
  | None => "0"%char
  end.

Fixpoint hex_digits (fuel : nat) (n : Z) (acc : string) : string :=
  match fuel with
  | O => acc
  | S f =>
      let acc' := String (hex_digit (n mod 16)) acc in
      if (n / 16 =? 0)%Z then acc' else hex_digits f (n / 16) acc'
  end.

Fixpoint zfill (width : nat) (s : string) : string :=
  match (width - String.length s)%nat with
  | O => s
  | S _ =>
      match width with
      | O => s
      | S w => String "0"%char (zfill w s)
      end
  end.

(** [format(n, "02X")]: uppercase hexadecimal, sign first, zero-padded to
    a total width of 2. *)
Definition format_02X (n : Z) : string :=
  let body := hex_digits (S (Z.to_nat (Z.log2 (Z.abs n)))) (Z.abs n) "" in
  if (n <? 0)%Z then String "-"%char (zfill 1 body) else zfill 2 body.

End PyStr.


(** ** The normalized highlight record and the extraction result

    The dictionaries built by [_extract_highlight_data] and
    [extract_highlights]; every key is always present. *)

Record Highlight : Type := mkHighlight {
  h_page : Z;
  h_text : string;
  h_color : list float;
  h_color_name : string;
  h_rect : list float;
  h_author : option string;
  h_created : option string
}.

Record ExtractionResult : Type := mkResult {
  source_file : string;
  source_path : string;
  extraction_date : string;
  total_pages : Z;
  total_highlights : Z;
  highlights : list Highlight
}.

(** ** [src/utils.py] *)

Module Utils.

Local Open Scope float_scope.

(** The table of reference colors, in the order of the dict literal. *)
Definition known_colors : list (string * (float * float * float)) :=
  [ ("Yellow", (1.0, 1.0, 0.0));
    ("Red", (1.0, 0.0, 0.0));
    ("Green", (0.0, 1.0, 0.0));
    ("Blue", (0.0, 0.0, 1.0));
    ("Orange", (1.0, 0.5, 0.0));
    ("Magenta", (1.0, 0.0, 1.0));
    ("Cyan", (0.0, 1.0, 1.0));
    ("Purple", (0.5, 0.0, 0.5));
    ("Pink", (1.0, 0.75, 0.8));
    ("Light Yellow", (1.0, 0.98, 0.6));
    ("Light Green", (0.6, 1.0, 0.6));
    ("Light Blue", (0.6, 0.8, 1.0));
    ("Light Pink", (1.0, 0.7, 0.7));
    ("Light Purple", (0.8, 0.6, 0.8));
    ("Light Orange", (1.0, 0.8, 0.4));
    ("Light Gray", (0.9, 0.9, 0.9));
    ("Dark Red", (0.5, 0.0, 0.0));
    ("Dark Green", (0.0, 0.5, 0.0));
    ("Dark Blue", (0.0, 0.0, 0.5));
    ("Gray", (0.5, 0.5, 0.5));
    ("Black", (0.0, 0.0, 0.0));
    ("White", (1.0, 1.0, 1.0));
    ("Teal", (0.0, 0.5, 0.5));
    ("Olive", (0.5, 0.5, 0.0));
    ("Maroon", (0.5, 0.0, 0.0));
    ("Navy", (0.0, 0.0, 0.5));
    ("Lime", (0.0, 1.0, 0.0));
    ("Gold", (1.0, 0.84, 0.0));
    ("Salmon", (0.98, 0.5, 0.45));
    ("Sky Blue", (0.53, 0.81, 0.92)) ].

Definition grayscale_names : list string :=
  ["Gray"; "Light Gray"; "Black"; "White"].

(** [name in names] *)
Definition name_in (name : string) (names : list string) : bool :=
  existsb (String.eqb name) names.

(** [saturation = max(r, g, b) - min(r, g, b)] *)
Definition saturation (r g b : float) : float :=
  Py.max3 r g b - Py.min3 r g b.

(** [is_chromatic = saturation > 0.15] *)
Definition is_chromatic (r g b : float) : bool :=
  0.15 <? saturation r g b.

(** [(r - cr) ** 2 + (g - cg) ** 2 + (b - cb) ** 2], left to right. *)
Definition dist (r g b : float) (c : float * float * float) : exc float :=
  let '(cr, cg, cb) := c in
  dr <- Py.sqr (r - cr) ;;
  dg <- Py.sqr (g - cg) ;;
  db <- Py.sqr (b - cb) ;;
  Ret (dr + dg + db).

(** The loop over [known_colors.items()], carrying [min_dist] and
    [closest_name]. *)
Fixpoint closest_loop (r g b : float) (chromatic : bool)
    (table : list (string * (float * float * float)))
    (min_dist : float) (closest_name : string) : exc string :=
  match table with
  | [] => Ret closest_name
  | (name, c) :: rest =>
      if chromatic && name_in name grayscale_names
      then closest_loop r g b chromatic rest min_dist closest_name
      else
        d <- dist r g b c ;;
        if d <? min_dist
        then closest_loop r g b chromatic rest d name
        else closest_loop r g b chromatic rest min_dist closest_name
  end.

Definition rgb_to_color_name (rgb : list float) : exc string :=
  match rgb with
  | r :: g :: b :: _ =>
      closest_loop r g b (is_chromatic r g b) known_colors infinity "Gray"
  | _ => Ret "unknown"
  end.

(** [max(0.0, min(1.0, x))] *)
Definition clamp (x : float) : float := Py.max2 0.0 (Py.min2 1.0 x).

(** [f"{int(x*255):02X}"] *)
Definition channel_hex (x : float) : exc string :=
  n <- Py.int (x * 255) ;; Ret (PyStr.format_02X n).

Definition rgb_to_hex (rgb : list float) : exc string :=
  match rgb with
  | r :: g :: b :: _ =>
      let '(r, g, b) :=
        if (1.0 <? r) || (1.0 <? g) || (1.0 <? b)
        then (r / 255.0, g / 255.0, b / 255.0)
        else (r, g, b) in
      let r := clamp r in
      let g := clamp g in
      let b := clamp b in
      hr <- channel_hex r ;;
      hg <- channel_hex g ;;
      hb <- channel_hex b ;;
      Ret ("#" ++ hr ++ hg ++ hb)%string
  | _ => Ret "#FFFFFF"
  end.

(** A dict of lists in insertion order;
    [if key not in d: d[key] = []] followed by [d[key].append(v)]. *)
Fixpoint dict_append {K V : Type} (eqb : K -> K -> bool)
    (d : list (K * list V)) (key : K) (v : V) : list (K * list V) :=
  match d with
  | [] => [(key, [v])]
  | (k, vs) :: rest =>
      if eqb k key then (k, vs ++ [v]) :: rest
      else (k, vs) :: dict_append eqb rest key v
  end.

(** [for h in highlights: grouped[key(h)].append(h)] from a given dict. *)
Definition group_loop {K V : Type} (eqb : K -> K -> bool) (key : V -> K)
    (hs : list V) (d : list (K * list V)) : list (K * list V) :=
  fold_left (fun d h => dict_append eqb d (key h) h) hs d.

Definition page_key (h : Highlight) : string := PyStr.of_int (h_page h).
Definition color_key (h : Highlight) : string := h_color_name h.

Definition group_highlights (highlights : list Highlight) (group_by : string)
    : list (string * list Highlight) :=
  if String.eqb group_by "page" then
    group_loop String.eqb page_key highlights []
  else if String.eqb group_by "color" then
    group_loop String.eqb color_key highlights []
  else [].

(** The object handed to [json.dumps]: the copy of [data], the
    [grouped_highlights] entry when it was added, and the indentation. *)
Record JsonOutput : Type := mkJsonOutput {
  json_data : ExtractionResult;
  grouped_highlights : option (list (string * list Highlight));
  json_indent : option nat
}.

(** [data] is an extraction result, so ['highlights' in output_data]
    holds; [group_by] is falsy when it is [None] or the empty string. *)
Definition format_json_output (data : ExtractionResult) (pretty : bool)
    (group_by : option string) : JsonOutput :=
  let grouped :=
    match group_by with
    | Some g =>
        if PyStr.truthy g then Some (group_highlights (highlights data) g)
        else None
    | None => None
    end in
  mkJsonOutput data grouped (if pretty then Some 2%nat else None).

End Utils.

(** ** [src/extractor.py]

    The PDF library is a collaborator: every attribute read and every
    call on a page or an annotation may raise. *)

Module Extractor.

Local Open Scope float_scope.

Record Rect : Type := mkRect { x0 : float; y0 : float; x1 : float; y1 : float }.

(** A value found in [annot.colors]: [None], a mapping, or a sequence of
    numbers. *)
Inductive ColorValue : Type :=
| PyNone
| PyDict
| PySeq (components : list float).

(** [annot.colors]; a field is [None] when the key is absent. *)
Record Colors : Type := mkColors {
  stroke : option ColorValue;
  fill : option ColorValue
}.

(** [annot.info]; a field is [None] when the key is absent. *)
Record Info : Type := mkInfo {
  title : option string;
  subject : option string;
  creationDate : option string
}.

(** A vertex [p], read as [p[0]] and [p[1]]. *)
Definition Point : Type := list float.

Record Annot : Type := mkAnnot {
  annot_type : exc Z;                          (* annot.type[0] *)
  vertices : exc (option (list Point));        (* annot.vertices *)
  colors : exc Colors;                         (* annot.colors *)
  rect : exc Rect;                             (* annot.rect *)
  info : exc Info                              (* annot.info *)
}.

(** What iterating over [page.annots()] yields: annotations, until the
    end or until the enumeration itself raises. *)
Inductive AnnotIter : Type :=
| IterEnd
| IterNext (annot : Annot) (rest : AnnotIter)
| IterRaise (e : exn).

Record Page : Type := mkPage {
  annots : exc (option AnnotIter);             (* page.annots(), may be None *)
  get_text : Rect -> exc string                (* page.get_text("text", clip=r) *)
}.

Definition YELLOW : list float := [1.0; 1.0; 0.0].

(** [p[i]] *)
Definition index (p : Point) (i : nat) : exc float :=
  match nth_error p i with
  | Some x => Ret x
  | None => Raise IndexError
  end.

(** [fitz.Rect(min(xs), min(ys), max(xs), max(ys))] for one quad. *)
Definition quad_rect (quad : list Point) : exc Rect :=
  xs <- mapM (fun p => index p 0) quad ;;
  ys <- mapM (fun p => index p 1) quad ;;
  xmin <- Py.min_list xs ;;
  ymin <- Py.min_list ys ;;
  xmax <- Py.max_list xs ;;
  ymax <- Py.max_list ys ;;
  Ret (mkRect xmin ymin xmax ymax).

(** [range(0, n, 4)] *)
Definition range4 (n : nat) : list nat :=
  map (fun k => 4 * k)%nat (seq 0 ((n + 3) / 4)).

(** The body of [for i in range(0, len(vertices), 4)]. *)
Fixpoint quads_loop (page : Page) (vs : list Point) (indices : list nat)
    (text_parts : list string) : exc (list string) :=
  match indices with
  | [] => Ret text_parts
  | i :: rest =>
      if (i + 3 <? List.length vs)%nat then
        let quad := firstn 4 (skipn i vs) in
        r <- quad_rect quad ;;
        text <- get_text page r ;;
        let text_parts :=
          if PyStr.truthy (PyStr.strip text)
          then text_parts ++ [PyStr.strip text] else text_parts in
        quads_loop page vs rest text_parts
      else quads_loop page vs rest text_parts
  end.

(** The [try] block of [_get_highlight_text]. *)
Definition primary_text (page : Page) (annot : Annot) : exc string :=
  vs <- vertices annot ;;
  text_parts <-
    match vs with
    | Some ((_ :: _) as l) =>
        if (4 <=? List.length l)%nat
        then quads_loop page l (range4 (List.length l)) []
        else Ret []
    | _ => Ret []
    end ;;
  text_parts <-
    match text_parts with
    | [] =>
        r <- rect annot ;;
        text <- get_text page r ;;
        Ret (if PyStr.truthy (PyStr.strip text) then [PyStr.strip text] else [])
    | _ => Ret text_parts
    end ;;
  Ret (PyStr.join " " text_parts).

(** The [except] handler of [_get_highlight_text]. *)
Definition rect_text (page : Page) (annot : Annot) : exc string :=
  r <- rect annot ;;
  text <- get_text page r ;;
  Ret (PyStr.strip text).

Definition _get_highlight_text (page : Page) (annot : Annot) : string :=
  match primary_text page annot with
  | Ret text => text
  | Raise _ =>
      match rect_text page annot with
      | Ret text => text
      | Raise _ => ""
      end
  end.

(** [annot.colors.get("stroke")], then [.get("fill", [1.0, 1.0, 0.0])]
    when that is [None]. *)
Definition resolve_color (c : Colors) : ColorValue :=
  let color := match stroke c with Some v => v | None => PyNone end in
  match color with
  | PyNone => match fill c with Some v => v | None => PySeq YELLOW end
  | _ => color
  end.

(** From [isinstance(color, dict)] to [color = color[:3]]; [len] of
    [None] raises. *)
Definition three_components (color : ColorValue) : exc (list float) :=
  let color := match color with PyDict => PySeq YELLOW | _ => color end in
  match color with
  | PySeq cs =>
      let cs :=
        if (List.length cs <? 3)%nat then
          if (List.length cs =? 1)%nat then
            match cs with
            | val :: _ => [val; val; val]
            | [] => cs
            end
          else cs ++ repeat 0.0 (3 - List.length cs)
        else cs in
      Ret (firstn 3 cs)
  | _ => Raise TypeError
  end.

(** [info.get("title") or info.get("subject") or None] *)
Definition author_of (i : Info) : option string :=
  match title i with
  | Some ((String _ _) as a) => Some a
  | _ =>
      match subject i with
      | Some ((String _ _) as a) => Some a
      | _ => None
      end
  end.

(** The [try] block of [_extract_highlight_data]. *)
Definition highlight_data (page : Page) (annot : Annot) (page_num : Z)
    : exc (option Highlight) :=
  let text := _get_highlight_text page annot in
  if negb (PyStr.truthy text) || negb (PyStr.truthy (PyStr.strip text))
  then Ret None
  else
    c <- colors annot ;;
    color <- three_components (resolve_color c) ;;
    r <- rect annot ;;
    let rect_coords := [x0 r; y0 r; x1 r; y1 r] in
    i <- info annot ;;
    let author := author_of i in
    let created := creationDate i in
    color_name <- Utils.rgb_to_color_name color ;;
    Ret (Some (mkHighlight page_num (PyStr.strip text) color color_name
                 rect_coords author created)).

Definition _extract_highlight_data (page : Page) (annot : Annot)
    (page_num : Z) : option Highlight :=
  match highlight_data page annot page_num with
  | Ret h => h
  | Raise _ => None
  end.

(** The body of [for annot in annots], with its own [try]. *)
Definition annot_step (page : Page) (page_num : Z) (annot : Annot)
    (highlights : list Highlight) : list Highlight :=
  match annot_type annot with
  | Ret ty =>
      if (ty =? 8)%Z then
        match _extract_highlight_data page annot page_num with
        | Some h => highlights ++ [h]
        | None => highlights
        end
      else highlights
  | Raise _ => highlights
  end.

Fixpoint annots_loop (page : Page) (page_num : Z) (it : AnnotIter)
    (highlights : list Highlight) : list Highlight :=
  match it with
  | IterEnd => highlights
  | IterRaise _ => highlights
  | IterNext annot rest =>
      annots_loop page page_num rest (annot_step page page_num annot highlights)
  end.

Definition _extract_page_highlights (page : Page) (page_num : Z)
    : list Highlight :=
  match annots page with
  | Ret (Some it) => annots_loop page page_num it []
  | Ret None => []
  | Raise _ => []
  end.

(** An open document is a collaborator as well: [len(self.doc)] and
    [self.doc[page_num]] may raise, and the code calls both outside of
    any [try]. *)
Record Document : Type := mkDocument {
  page_count : exc nat;                        (* len(self.doc) *)
  load_page : nat -> exc Page                  (* self.doc[page_num] *)
}.

(** The body of [for page_num in range(len(self.doc))]: the page is
    loaded, then read under the 1-based number [page_num + 1]; a page
    that fails to load ends the loop with its exception. *)
Fixpoint pages_loop (d : Document) (indices : list nat)
    (highlights : list Highlight) : exc (list Highlight) :=
  match indices with
  | [] => Ret highlights
  | page_num :: rest =>
      page <- load_page d page_num ;;
      pages_loop d rest
        (highlights ++ _extract_page_highlights page (Z.of_nat page_num + 1))
  end.

(** [self.doc] is [None] until the context manager opens the
    document. *)
Record HighlightExtractor : Type := mkExtractor {
  pdf_path : string;
  doc : option Document
}.

Definition not_opened : string := "Document not opened. Use context manager.".

Section Environment.

(** [Path(p).name], [str(Path(p).absolute())] and
    [datetime.now(timezone.utc).isoformat()]. *)
Variable path_name : string -> string.
Variable path_absolute : string -> string.
Variable utc_now : string.

(** [if not self.doc] is true for [None] and, the document being a sized
    object, for an open document of length 0. *)
Definition extract_highlights (self : HighlightExtractor)
    : exc ExtractionResult :=
  match doc self with
  | None => Raise (RuntimeError not_opened)
  | Some d =>
      n <- page_count d ;;
      if (n =? 0)%nat then Raise (RuntimeError not_opened)
      else
        highlights <- pages_loop d (seq 0 n) [] ;;
        Ret (mkResult (path_name (pdf_path self))
               (path_absolute (pdf_path self))
               utc_now
               (Z.of_nat n)
               (Z.of_nat (List.length highlights))
               highlights)
  end.

End Environment.

End Extractor.

(** ** The grouping pattern of the exporters

    Both exporters build a dict of lists and then run
    [for k in sorted(d.keys())] over it. *)

Module Grouping.

(** [sorted(keys)], a stable sort that compares with [<] only. *)
Fixpoint insert {K : Type} (ltb : K -> K -> bool) (x : K) (l : list K)
    : list K :=
  match l with
  | [] => [x]
  | y :: tl => if ltb x y then x :: l else y :: insert ltb x tl
  end.

Definition sorted {K : Type} (ltb : K -> K -> bool) (l : list K) : list K :=
  fold_left (fun acc x => insert ltb x acc) l [].

(** [d[k]] for a key of the dict. *)
Fixpoint lookup {K V : Type} (eqb : K -> K -> bool) (d : list (K * list V))
    (key : K) : list V :=
  match d with
  | [] => []
  | (k, vs) :: rest => if eqb k key then vs else lookup eqb rest key
  end.

(** The pairs [(k, d[k])] met by [for k in sorted(d.keys())], where [d]
    was filled by [d[key(h)].append(h)] over [hs]. *)
Definition sorted_groups {K : Type} (eqb ltb : K -> K -> bool)
    (key : Highlight -> K) (hs : list Highlight)
    : list (K * list Highlight) :=
  let d := Utils.group_loop eqb key hs [] in
  map (fun k => (k, lookup eqb d k)) (sorted ltb (map fst d)).

Definition by_page : list Highlight -> list (Z * list Highlight) :=
  sorted_groups Z.eqb Z.ltb h_page.

Definition by_color : list Highlight -> list (string * list Highlight) :=
  sorted_groups String.eqb String.ltb h_color_name.

End Grouping.

(** Library functions the exporters call: [str.title],
    [pathlib.Path(p).stem] and [uuid.uuid4], the latter as the token
    produced by the n-th call. *)
Record Library : Type := mkLibrary {
  str_title : string -> string;
  path_stem : string -> string;
  uuid_token : nat -> string
}.

Definition newline : string := String (ascii_of_nat 10) EmptyString.
Definition dquote : string := String (ascii_of_nat 34) EmptyString.

(** ** [src/xmind_exporter.py] *)

Module XMind.

(** A topic below the root: id, title, the [style.properties] dict when
    there is one, and [children.attached] when there is one. *)
Inductive Topic : Type :=
| mkTopic (topic_id : string) (topic_title : string)
    (style : option (list (string * string)))
    (attached : option (list Topic)).

Definition topic_title (t : Topic) : string :=
  match t with mkTopic _ ttl _ _ => ttl end.

Definition topic_children (t : Topic) : list Topic :=
  match t with
  | mkTopic _ _ _ (Some ts) => ts
  | mkTopic _ _ _ None => []
  end.

Record RootTopic : Type := mkRoot {
  root_id : string;
  root_class : string;
  root_title : string;
  structureClass : string;
  root_attached : list Topic;
  notes : string
}.

Record Sheet : Type := mkSheet {
  sheet_id : string;
  sheet_class : string;
  sheet_title : string;
  rootTopic : RootTopic
}.

(** Building the tree draws ids one after the other and may raise: a
    computation takes the number of ids drawn so far. *)
Definition Gen (A : Type) : Type := nat -> exc (A * nat).

Definition gret {A : Type} (a : A) : Gen A := fun n => Ret (a, n).

Definition gbind {A B : Type} (m : Gen A) (k : A -> Gen B) : Gen B :=
  fun n =>
    match m n with
    | Ret (a, n') => k a n'
    | Raise e => Raise e
    end.

Definition lift {A : Type} (m : exc A) : Gen A :=
  fun n => match m with Ret a => Ret (a, n) | Raise e => Raise e end.

Notation "x <~ m ;; k" := (gbind m (fun x => k))
  (at level 61, m at next level, right associativity).

Fixpoint gmap {A B : Type} (f : A -> Gen B) (xs : list A) : Gen (list B) :=
  match xs with
  | [] => gret []
  | x :: tl => y <~ f x ;; ys <~ gmap f tl ;; gret (y :: ys)
  end.

Section WithLibrary.

Variable lib : Library.

Definition _generate_id : Gen string :=
  fun n => Ret (uuid_token lib n, S n).

Definition group_style (hex_color : string) : list (string * string) :=
  [ ("svg:fill", hex_color);
    ("fill", hex_color);
    ("shape-class", "org.xmind.topicShape.roundedRect");
    ("border-line-color", hex_color);
    ("line-color", hex_color) ].

Definition highlight_style (hex_color : string) : list (string * string) :=
  [ ("svg:fill", hex_color);
    ("shape-class", "org.xmind.topicShape.roundedRect");
    ("border-line-color", hex_color) ].

(** [_add_highlight_topic]: the topic appended for one highlight. *)
Definition _add_highlight_topic (highlight : Highlight) : Gen Topic :=
  hex_color <~ lift (Utils.rgb_to_hex (h_color highlight)) ;;
  i <~ _generate_id ;;
  gret (mkTopic i (h_text highlight) (Some (highlight_style hex_color)) None).

(** [color_highlights[0].get('color', [])] *)
Definition first_color (color_highlights : list Highlight) : list float :=
  match color_highlights with
  | h :: _ => h_color h
  | [] => []
  end.

Definition page_title (page_num : Z) : string :=
  "Page " ++ PyStr.of_int page_num.

Definition placeholder : Gen (list Topic) :=
  i <~ _generate_id ;;
  gret [mkTopic i "No highlights found" None None].

(** The color topic of one color group inside a page topic. *)
Definition color_in_page_topic (g : string * list Highlight) : Gen Topic :=
  let '(color_name, color_highlights) := g in
  hex_color <~ lift (Utils.rgb_to_hex (first_color color_highlights)) ;;
  i <~ _generate_id ;;
  leaves <~ gmap _add_highlight_topic color_highlights ;;
  gret (mkTopic i (str_title lib color_name) (Some (group_style hex_color))
          (Some leaves)).

Definition page_topic (g : Z * list Highlight) : Gen Topic :=
  let '(page_num, page_highlights) := g in
  i <~ _generate_id ;;
  cs <~ gmap color_in_page_topic (Grouping.by_color page_highlights) ;;
  gret (mkTopic i (page_title page_num) None (Some cs)).

(** [_add_page_topics]: what is appended to the root's attached list. *)
Definition _add_page_topics (hs : list Highlight) : Gen (list Topic) :=
  match hs with
  | [] => placeholder
  | _ => gmap page_topic (Grouping.by_page hs)
  end.

(** The page topic of one page group inside a color topic. *)
Definition page_in_color_topic (g : Z * list Highlight) : Gen Topic :=
  let '(page_num, page_highlights) := g in
  i <~ _generate_id ;;
  leaves <~ gmap _add_highlight_topic page_highlights ;;
  gret (mkTopic i (page_title page_num) None (Some leaves)).

Definition color_topic (g : string * list Highlight) : Gen Topic :=
  let '(color_name, color_highlights) := g in
  hex_color <~ lift (Utils.rgb_to_hex (first_color color_highlights)) ;;
  i <~ _generate_id ;;
  ps <~ gmap page_in_color_topic (Grouping.by_page color_highlights) ;;
  gret (mkTopic i (str_title lib color_name) (Some (group_style hex_color))
          (Some ps)).

(** [_add_color_topics] *)
Definition _add_color_topics (hs : list Highlight) : Gen (list Topic) :=
  match hs with
  | [] => placeholder
  | _ => gmap color_topic (Grouping.by_color hs)
  end.

Definition _create_metadata_text (data : ExtractionResult) : string :=
  "Total Pages: " ++ PyStr.of_int (total_pages data) ++ newline ++
  "Total Highlights: " ++ PyStr.of_int (total_highlights data) ++ newline ++
  "Extraction Date: " ++ extraction_date data ++ newline ++
  "Source Path: " ++ source_path data.

Definition _create_content (data : ExtractionResult) (group_by : string)
    : Gen (list Sheet) :=
  let source_file :=
    if String.eqb (source_file data) "PDF Highlights" then source_file data
    else path_stem lib (source_file data) in
  rid <~ _generate_id ;;
  attached <~ (if String.eqb group_by "page"
               then _add_page_topics (highlights data)
               else _add_color_topics (highlights data)) ;;
  let root_topic :=
    mkRoot rid "topic" source_file "org.xmind.ui.map.unbalanced" attached
      (_create_metadata_text data) in
  sid <~ _generate_id ;;
  gret [mkSheet sid "sheet" ("Highlights: " ++ source_file) root_topic].

Record Metadata : Type := mkMetadata {
  creator_name : string;
  creator_version : string;
  created : string
}.

Definition _create_metadata (data : ExtractionResult) : Metadata :=
  mkMetadata "PDF Highlight Extractor" "1.0.0" (extraction_date data).

(** The keys of [file-entries]. *)
Definition _create_manifest : list string :=
  ["content.json"; "metadata.json"].

(** The archive written by [export]: its three members, in order. *)
Inductive Member : Type :=
| ContentJson (content : list Sheet)
| ManifestJson (file_entries : list string)
| MetadataJson (metadata : Metadata).

Definition Archive : Type := list (string * Member).

(** The part of the file system [export] touches: the archives stored
    under their paths, and whether [zipfile.ZipFile(path, 'w')] can
    create a file there. *)
Record FileSystem : Type := mkFS {
  files : string -> option Archive;
  can_create : string -> bool
}.

Definition write (fs : FileSystem) (path : string) (a : Archive)
    : FileSystem :=
  mkFS (fun p => if String.eqb p path then Some a else files fs p)
       (can_create fs).

(** [export]: the outcome and the file system it leaves. *)
Definition export (data : ExtractionResult) (fs : FileSystem)
    (output_path : string) (group_by : string) : exc unit * FileSystem :=
  if negb (Utils.name_in group_by ["page"; "color"]) then
    (Raise (ValueError ("Invalid group_by option: " ++ group_by)), fs)
  else
    match _create_content data group_by 0%nat with
    | Raise e => (Raise e, fs)
    | Ret (content, _) =>
        let manifest := _create_manifest in
        let metadata := _create_metadata data in
        if can_create fs output_path then
          (Ret tt,
           write fs output_path
             [ ("content.json", ContentJson content);
               ("manifest.json", ManifestJson manifest);
               ("metadata.json", MetadataJson metadata) ])
        else (Raise OSError, fs)
    end.

End WithLibrary.

End XMind.

(** ** [src/notion_exporter.py] *)

Module Notion.

Section WithLibrary.

Variable lib : Library.

(** The block-quoted line of one highlight. *)
Definition quote_line (highlight : Highlight) : exc string :=
  hex_color <- Utils.rgb_to_hex (h_color highlight) ;;
  let colored_text :=
    ("<span style=" ++ dquote ++ "color: " ++ hex_color ++ dquote ++ ">"
     ++ h_text highlight ++ "</span>")%string in
  Ret ("> " ++ colored_text ++ newline)%string.

Definition page_heading (level : string) (page_num : Z) : string :=
  level ++ " Page " ++ PyStr.of_int page_num ++ newline.

Definition color_heading (level : string) (color_name : string) : string :=
  level ++ " " ++ str_title lib color_name ++ newline.

(** The lines appended for one inner group: its heading, then the
    quotes. *)
Definition inner_lines (heading : string) (hs : list Highlight)
    : exc (list string) :=
  qs <- mapM quote_line hs ;; Ret (heading :: qs).

(** The lines appended for one outer group. *)
Definition page_section (g : Z * list Highlight) : exc (list string) :=
  let '(page_num, page_highlights) := g in
  inner <- mapM (fun c => inner_lines (color_heading "####" (fst c)) (snd c))
             (Grouping.by_color page_highlights) ;;
  Ret (page_heading "###" page_num :: List.concat inner).

Definition color_section (g : string * list Highlight) : exc (list string) :=
  let '(color_name, color_highlights) := g in
  inner <- mapM (fun p => inner_lines (page_heading "####" (fst p)) (snd p))
             (Grouping.by_page color_highlights) ;;
  Ret (color_heading "###" color_name :: List.concat inner).

Definition header_lines (data : ExtractionResult) : list string :=
  let source_path := source_path data in
  let filename :=
    if String.eqb source_path "Unknown PDF" then source_path
    else path_stem lib source_path in
  [ ("# " ++ filename ++ newline)%string;
    ("## Document Information" ++ newline)%string;
    ("- **Source:** " ++ source_path)%string;
    ("- **Total Pages:** " ++ PyStr.of_int (total_pages data))%string;
    ("- **Total Highlights:** " ++ PyStr.of_int (total_highlights data))%string;
    ("- **Extraction Date:** " ++ extraction_date data ++ newline)%string ].

(** The list [lines] at the end of [_generate_markdown]. *)
Definition markdown_lines (data : ExtractionResult) (group_by : string)
    : exc (list string) :=
  match highlights data with
  | [] =>
      Ret (header_lines data ++
           [ ("## Highlights" ++ newline)%string;
             ("*No highlights found in this document.*" ++ newline)%string ])
  | hs =>
      sections <-
        (if String.eqb group_by "page"
         then mapM page_section (Grouping.by_page hs)
         else mapM color_section (Grouping.by_color hs)) ;;
      Ret (header_lines data ++ [("## Highlights" ++ newline)%string]
           ++ List.concat sections)
  end.

Definition _generate_markdown (data : ExtractionResult) (group_by : string)
    : exc string :=
  lines <- markdown_lines data group_by ;;
  Ret (PyStr.join newline lines).

End WithLibrary.

End Notion.

(** ** Auxiliary notions used in the statements *)

(** A binary64 value that is neither a NaN nor an infinity. *)
Definition is_number (x : spec_float) : Prop :=
  match x with
  | S754_zero _ | S754_finite _ _ _ => True
  | _ => False
  end.

(** The keys of a list in the order of their first occurrence, after the
    keys [acc] already seen. *)
Definition first_seen_from {K : Type} (eqb : K -> K -> bool)
    (ks : list K) (acc : list K) : list K :=
  fold_left
    (fun acc k => if existsb (fun k0 => eqb k0 k) acc then acc else acc ++ [k])
    ks acc.

Definition first_seen {K : Type} (eqb : K -> K -> bool) (ks : list K)
    : list K :=
  first_seen_from eqb ks [].

(** Strictly ascending page numbers and color names. *)
Definition ascending_pages (pages : list Z) : Prop :=
  StronglySorted Z.lt pages.

Definition ascending_names (names : list string) : Prop :=
  StronglySorted (fun a b => String.ltb a b = true) names.

(** The topics of the mind map by page: page topics in ascending page
    order, and below each the color topics in ascending name order. *)
Definition xmind_page_order (lib : Library) (topics : list XMind.Topic)
    : Prop :=
  exists pages,
    ascending_pages pages /\
    map XMind.topic_title topics = map XMind.page_title pages /\
    Forall (fun t => exists names,
                ascending_names names /\
                map XMind.topic_title (XMind.topic_children t) =
                map (str_title lib) names) topics.

Definition xmind_color_order (lib : Library) (topics : list XMind.Topic)
    : Prop :=
  exists names,
    ascending_names names /\
    map XMind.topic_title topics = map (str_title lib) names /\
    Forall (fun t => exists pages,
                ascending_pages pages /\
                map XMind.topic_title (XMind.topic_children t) =
                map XMind.page_title pages) topics.

(** Markdown blocks: under each key, in order, its heading followed by
    the quote lines of some highlights. *)
Definition md_blocks {K : Type} (heading : K -> string) (keys : list K)
    (blocks : list (list string)) : Prop :=
  Forall2 (fun k block => exists quoted qs,
               mapM Notion.quote_line quoted = Ret qs /\
               block = heading k :: qs) keys blocks.

Definition md_highlights_heading : string := "## Highlights" ++ newline.

Definition md_page_order (lib : Library) (data : ExtractionResult)
    (lines : list string) : Prop :=
  exists pages sections,
    ascending_pages pages /\
    lines = Notion.header_lines lib data ++ [md_highlights_heading]
            ++ List.concat sections /\
    Forall2 (fun p section => exists names blocks,
                 ascending_names names /\
                 section = Notion.page_heading "###" p :: List.concat blocks /\
                 md_blocks (Notion.color_heading lib "####") names blocks)
      pages sections.

Definition md_color_order (lib : Library) (data : ExtractionResult)
    (lines : list string) : Prop :=
  exists names sections,
    ascending_names names /\
    lines = Notion.header_lines lib data ++ [md_highlights_heading]
            ++ List.concat sections /\
    Forall2 (fun nm section => exists pages blocks,
                 ascending_pages pages /\
                 section = Notion.color_heading lib "###" nm
                           :: List.concat blocks /\
                 md_blocks (Notion.page_heading "####") pages blocks)
      names sections.

(** The keys of the grouped view of a JSON output, in the order in which
    [json.dumps] writes them. *)
Definition json_keys (out : Utils.JsonOutput) : list string :=
  match Utils.grouped_highlights out with
  | Some m => map fst m
  | None => []
  end.

(** Highlights in page order, as an extraction run lists them. *)
Definition in_page_order (hs : list Highlight) : Prop :=
  StronglySorted Z.le (map h_page hs).

(** ** Text recovery as the specification words it

    Quad points grouped in strict chunks of four, a trailing incomplete
    chunk ignored; the page text inside the bounding box of each chunk,
    trimmed; the non-empty ones joined with a single space, in quad
    order; the bounding rectangle of the annotation when there is no
    usable quad or no fragment; one retry of the bounding rectangle when
    that primary path raises, and the empty string when the retry raises
    too. *)

Module TextRecoverySpec.

Import Extractor.







End TextRecoverySpec.

(** ** Annotations of a document, as the extractor meets them *)

(** The annotations an enumeration yields before it ends or raises. *)
Fixpoint iter_annots (it : Extractor.AnnotIter) : list Extractor.Annot :=
  match it with
  | Extractor.IterNext annot rest => annot :: iter_annots rest
  | _ => []
  end.

Definition page_annots (page : Extractor.Page) : list Extractor.Annot :=
  match Extractor.annots page with
  | Ret (Some it) => iter_annots it
  | _ => []
  end.

(** The annotations of the pages, each with its page and its 1-based
    page number, [page_num] being the index of the first page. *)
Fixpoint doc_annots (pages : list Extractor.Page) (page_num : Z)
    : list (Z * Extractor.Page * Extractor.Annot) :=
  match pages with
  | [] => []
  | page :: rest =>
      map (fun annot => (page_num + 1, page, annot)%Z) (page_annots page)
      ++ doc_annots rest (page_num + 1)
  end.

(** What one annotation contributes to the result: its record when it is
    a highlight (type 8) that normalizes, nothing otherwise. *)
Definition contribution (x : Z * Extractor.Page * Extractor.Annot)
    : list Highlight :=
  let '(page_num, page, annot) := x in
  match Extractor.annot_type annot with
  | Ret ty =>
      if (ty =? 8)%Z then
        match Extractor._extract_highlight_data page annot page_num with
        | Some h => [h]
        | None => []
        end
      else []
  | Raise _ => []
  end.






(** The pages of an open document of [n] pages, when every one of them
    loads; otherwise the exception of the first page that does not. *)
Definition loaded_pages (d : Extractor.Document) (n : nat)
    : exc (list Extractor.Page) :=
  mapM (Extractor.load_page d) (seq 0 n).

(** A component in [0.0, 1.0]. *)
Definition in_unit (x : float) : bool :=
  ((0 <=? x) && (x <=? 1))%float.

Definition value_in_unit (v : Extractor.ColorValue) : bool :=
  match v with
  | Extractor.PySeq cs => forallb in_unit cs
  | _ => true
  end.

Definition colors_in_unit (c : Extractor.Colors) : bool :=
  match Extractor.stroke c with Some v => value_in_unit v | None => true end
  && match Extractor.fill c with Some v => value_in_unit v | None => true end.

(** A string that does not start with whitespace. *)
Definition no_leading_space (s : string) : Prop :=
  match s with
  | EmptyString => True
  | String c _ => PyStr.isspace c = false
  end.

(** The strict order and the non-strict order read off a boolean [<]. *)
Definition lt_of {K : Type} (ltb : K -> K -> bool) (x y : K) : Prop :=
  ltb x y = true.

Definition le_of {K : Type} (ltb : K -> K -> bool) (x y : K) : Prop :=
  ltb y x = false.

(** A binary64 number of magnitude at most [M]: zero, or a finite value
    whose mantissa has [d] digits at an exponent [e] with [d + e <= M],
    that is, an absolute value below [2 ^ M]. *)
Definition mag_le (x : spec_float) (M : Z) : Prop :=
  match x with
  | S754_zero _ => True
  | S754_finite _ m e => (Zdigits2 (Zpos m) + e <= M)%Z
  | _ => False
  end.

(** ** Sample inputs *)

Module Sample.

Import Extractor.

Local Open Scope float_scope.

Definition lib : Library :=
  mkLibrary (fun s => s) (fun s => s) (fun n => PyStr.of_int (Z.of_nat n)).

Definition rect_a : Rect := mkRect 100 200 300 220.
Definition rect_b : Rect := mkRect 100 250 300 270.

Definition same_rect (a b : Rect) : bool :=
  (x0 a =? x0 b) && (y0 a =? y0 b) && (x1 a =? x1 b) && (y1 a =? y1 b).

Definition no_info : Info := mkInfo None None None.

Definition annot_yellow : Annot :=
  mkAnnot (Ret 8%Z) (Ret (Some []))
    (Ret (mkColors (Some (PySeq [1.0; 1.0; 0.0])) None))
    (Ret rect_a) (Ret no_info).

Definition annot_red : Annot :=
  mkAnnot (Ret 8%Z) (Ret (Some []))
    (Ret (mkColors (Some (PySeq [1.0; 0.0; 0.0])) None))
    (Ret rect_b) (Ret (mkInfo (Some "Test User") None (Some "D:20260131210000"))).


(** A highlight whose stroke color has two components, one above 1. *)
Definition annot_overdriven : Annot :=
  mkAnnot (Ret 8%Z) (Ret None)
    (Ret (mkColors (Some (PySeq [2.0; 0.5])) None))
    (Ret rect_a) (Ret no_info).

Definition page_text (r : Rect) : exc string :=
  if same_rect r rect_a then Ret "  First highlight  "
  else if same_rect r rect_b then Ret "Second highlight"
  else Raise (CollaboratorError "no text").

Definition page_two : Page :=
  mkPage (Ret (Some (IterNext annot_yellow (IterNext annot_red IterEnd))))
    page_text.


Definition page_overdriven : Page :=
  mkPage (Ret (Some (IterNext annot_overdriven IterEnd))) page_text.



(** A highlight without any color: both entries of [annot.colors] hold
    [None]. *)
Definition annot_colorless : Annot :=
  mkAnnot (Ret 8%Z) (Ret (Some []))
    (Ret (mkColors (Some PyNone) (Some PyNone)))
    (Ret rect_a) (Ret no_info).

(** The same highlight, the [fill] key being absent. *)
Definition annot_stroke_none : Annot :=
  mkAnnot (Ret 8%Z) (Ret (Some []))
    (Ret (mkColors (Some PyNone) None))
    (Ret rect_a) (Ret no_info).

(** An open document whose pages all load. *)
Definition document_of (pages : list Page) : Document :=
  mkDocument (Ret (List.length pages))
    (fun i => match nth_error pages i with
              | Some page => Ret page
              | None => Raise IndexError
              end).


Definition extractor_two : HighlightExtractor :=
  mkExtractor "test.pdf" (Some (document_of [page_two])).


Definition extractor_overdriven : HighlightExtractor :=
  mkExtractor "test.pdf" (Some (document_of [page_overdriven])).




Definition h_yellow : Highlight :=
  mkHighlight 1 "First highlight" [1.0; 1.0; 0.0] "Yellow"
    [100; 200; 300; 220] None None.

Definition h_red : Highlight :=
  mkHighlight 1 "Second highlight" [1.0; 0.0; 0.0] "Red"
    [100; 250; 300; 270] (Some "Test User") (Some "D:20260131210000").

Definition h_overdriven : Highlight :=
  mkHighlight 1 "First highlight" [2.0; 0.5; 0.0] "Orange"
    [100; 200; 300; 220] None None.


Definition h_stroke_none : Highlight :=
  mkHighlight 1 "First highlight" [1.0; 1.0; 0.0] "Yellow"
    [100; 200; 300; 220] None None.

Definition result_of (hs : list Highlight) : ExtractionResult :=
  mkResult "test.pdf" "/path/to/test.pdf" "2026-01-31T21:00:00+00:00" 1
    (Z.of_nat (List.length hs)) hs.

(** The extraction run of the samples: file name, absolute path and
    clock. *)
Definition run (self : HighlightExtractor) : exc ExtractionResult :=
  extract_highlights (fun _ => "test.pdf") (fun _ => "/path/to/test.pdf")
    "2026-01-31T21:00:00+00:00" self.

Definition empty_disk : XMind.FileSystem :=
  XMind.mkFS (fun _ => None) (fun _ => true).

End Sample.

(** * Properties *)

(** ** Binary64 facts behind the hex converter

    [int(x * 255)] raises on a NaN or an infinity; after the clamp the
    product is a finite number.  The bounds below follow the rounding of
    [SpecFloat] only as far as the exponent of the result. *)

Section Binary64.

Local Open Scope Z_scope.

Lemma digits2_pos_size (p : positive) : digits2_pos p = Pos.size p.
Proof. induction p; cbn; congruence. Qed.

Lemma Zdigits2_log2 (p : positive) : Zdigits2 (Zpos p) = Z.log2 (Zpos p) + 1.
Proof.
  cbn [Zdigits2]. rewrite digits2_pos_size.
  destruct p; cbn [Pos.size Z.log2]; lia.
Qed.

Lemma Zdigits2_nonneg (m : Z) : 0 <= Zdigits2 m.
Proof. destruct m; cbn; lia. Qed.

Lemma Zdigits2_mono (a b : Z) : 0 <= a <= b -> Zdigits2 a <= Zdigits2 b.
Proof.
  intros [Ha Hab]. destruct a as [|a|a]; [apply Zdigits2_nonneg| |lia].
  destruct b as [|b|b]; [lia| |lia].
  rewrite !Zdigits2_log2. apply Z.add_le_mono_r, Z.log2_le_mono. exact Hab.
Qed.

Lemma Zdigits2_succ (a : Z) : 0 <= a -> Zdigits2 (a + 1) <= Zdigits2 a + 1.
Proof.
  intros Ha. destruct a as [|a|a]; [cbn; lia| |lia].
  replace (Zpos a + 1) with (Zpos (a + 1)) by lia.
  rewrite !Zdigits2_log2.
  pose proof (Z.log2_succ_le (Zpos a)). 
  replace (Z.succ (Zpos a)) with (Zpos (a + 1)) in H by lia. lia.
Qed.

Lemma Zdigits2_mul (a b : positive) :
  Zdigits2 (Zpos (a * b)) <= Zdigits2 (Zpos a) + Zdigits2 (Zpos b).
Proof.
  rewrite !Zdigits2_log2.
  pose proof (Z.log2_mul_above (Zpos a) (Zpos b)).
  replace (Zpos a * Zpos b) with (Zpos (a * b)) in H by lia. lia.
Qed.

Lemma shr_1_bounds (mrs : shr_record) :
  0 <= shr_m mrs -> 0 <= shr_m (shr_1 mrs) <= shr_m mrs.
Proof.
  destruct mrs as [m r s]. cbn [shr_m shr_1].
  destruct m as [|[p|p|]|[p|p|]]; cbn [shr_m]; lia.
Qed.

Lemma iter_shr_1_bounds (p : positive) :
  forall mrs, 0 <= shr_m mrs ->
              0 <= shr_m (SpecFloat.iter_pos shr_1 p mrs) <= shr_m mrs.
Proof.
  induction p as [p IH|p IH|]; intros mrs H; cbn [SpecFloat.iter_pos].
  - pose proof (shr_1_bounds mrs H) as H1.
    pose proof (IH _ (proj1 H1)) as H2.
    pose proof (IH _ (proj1 H2)) as H3. lia.
  - pose proof (IH _ H) as H1.
    pose proof (IH _ (proj1 H1)) as H2. lia.
  - apply shr_1_bounds, H.
Qed.

Lemma shr_record_of_loc_m (m : Z) (l : location) :
  shr_m (shr_record_of_loc m l) = m.
Proof. destruct l as [|[]]; reflexivity. Qed.

(** One [shr_fexp] step: the mantissa does not grow and stays
    non-negative; the exponent is the old one or the canonical one. *)
Lemma shr_fexp_bounds (m e : Z) (l : location) :
  0 <= m ->
  let '(mrs, e') := shr_fexp prec emax m e l in
  0 <= shr_m mrs <= m /\
  (e' = e \/ e' = fexp prec emax (Zdigits2 m + e)).
Proof.
  intros Hm. unfold shr_fexp, shr.
  destruct (fexp prec emax (Zdigits2 m + e) - e) as [|p|p] eqn:Hn.
  - rewrite shr_record_of_loc_m. split; [lia|left; reflexivity].
  - split.
    + pose proof (iter_shr_1_bounds p (shr_record_of_loc m l)) as H.
      rewrite shr_record_of_loc_m in H. apply H, Hm.
    + right. lia.
  - rewrite shr_record_of_loc_m. split; [lia|left; reflexivity].
Qed.

Lemma round_nearest_even_bounds (m : Z) (l : location) :
  m <= round_nearest_even m l <= m + 1.
Proof.
  destruct l as [|[]]; cbn [round_nearest_even]; try lia.
  destruct (Z.even m); lia.
Qed.

(** Rounding a positive mantissa of at most [D] digits at an exponent of
    at most [E] gives a number when [2 * D + E] is far from the largest
    exponent. *)
Lemma binary_round_aux_number (sx : bool) (mx : positive) (ex : Z)
    (lx : location) (D E : Z) :
  Zdigits2 (Zpos mx) <= D -> ex <= E -> D <= 1000 -> 2 * D + E + 1 <= 971 ->
  is_number (binary_round_aux prec emax sx (Zpos mx) ex lx).
Proof.
  intros HD HE HD' Hbound. unfold binary_round_aux.
  pose proof (Zdigits2_nonneg (Zpos mx)) as Hd0.
  pose proof (shr_fexp_bounds (Zpos mx) ex lx ltac:(lia)) as H1.
  destruct (shr_fexp prec emax (Zpos mx) ex lx) as [mrs1 e1].
  destruct H1 as [Hm1 He1].
  set (m2 := round_nearest_even (shr_m mrs1) (loc_of_shr_record mrs1)).
  pose proof (round_nearest_even_bounds (shr_m mrs1) (loc_of_shr_record mrs1))
    as Hm2. fold m2 in Hm2.
  pose proof (shr_fexp_bounds m2 e1 loc_Exact ltac:(lia)) as H2.
  destruct (shr_fexp prec emax m2 e1 loc_Exact) as [mrs2 e2].
  destruct H2 as [Hm3 He2].
  assert (Hd2 : Zdigits2 m2 <= D + 1).
  { transitivity (Zdigits2 (Zpos mx + 1)).
    - apply Zdigits2_mono. lia.
    - pose proof (Zdigits2_succ (Zpos mx) ltac:(lia)). lia. }
  pose proof (Zdigits2_nonneg m2) as Hd2'.
  assert (He : e2 <= 971).
  { unfold fexp, SpecFloat.emin, prec, emax in *. lia. }
  destruct (shr_m mrs2) as [|m3|m3]; [exact I| |lia].
  replace (e2 <=? emax - prec) with true; [exact I|].
  symmetry. apply Z.leb_le. unfold emax, prec. lia.
Qed.

Lemma valid_digits (s : bool) (m : positive) (e : Z) :
  SpecFloat.valid_binary prec emax (S754_finite s m e) = true -> Zdigits2 (Zpos m) <= 53.
Proof.
  cbn [SpecFloat.valid_binary Zdigits2]. unfold bounded, canonical_mantissa.
  intros H. apply andb_true_iff in H. destruct H as [H _].
  apply Z.eqb_eq in H. unfold fexp, SpecFloat.emin, prec, emax in H. lia.
Qed.

Local Open Scope float_scope.

(** Strictly between 0 and 1, the product with 255 converts to an int. *)
Lemma int_mul_255 (x : float) :
  (0 <? x) = true -> (x <? 1) = true -> exists n, Py.int (x * 255) = Ret n.
Proof.
  intros H0 H1. unfold Py.int. rewrite mul_spec.
  rewrite ltb_spec in H0, H1.
  pose proof (Prim2SF_valid x) as Hv.
  set (zero := Prim2SF 0) in H0. vm_compute in zero. subst zero.
  set (one := Prim2SF 1) in H1. vm_compute in one. subst one.
  set (c := Prim2SF 255). vm_compute in c. subst c.
  destruct (Prim2SF x) as [s|s| |s m e].
  - discriminate H0.
  - destruct s; discriminate.
  - discriminate H0.
  - destruct s; [discriminate H0|].
    assert (He : (e <= -52)%Z).
    { unfold SFltb, SFcompare in H1.
      destruct (Z.compare_spec e (-52)); [lia|lia|discriminate H1]. }
    pose proof (valid_digits _ _ _ Hv) as Hd.
    unfold SF64mul, SFmul. change (xorb false false) with false.
    match goal with
    | |- context [binary_round_aux prec emax false (Z.pos (m * ?c)) ?ee ?l] =>
        pose proof (binary_round_aux_number false (m * c) ee l 106 (-97)) as Hn;
        assert (Hc : Zdigits2 (Z.pos c) = 53%Z) by reflexivity;
        pose proof (Zdigits2_mul m c) as Hmul;
        destruct (binary_round_aux prec emax false (Z.pos (m * c)) ee l)
    end;
      try (eexists; reflexivity); exfalso; apply Hn; lia.
Qed.

Lemma clamp_cases (x : float) :
  Utils.clamp x = 0 \/ Utils.clamp x = 1 \/
  (Utils.clamp x = x /\ (0 <? x) = true /\ (x <? 1) = true).
Proof.
  unfold Utils.clamp, Py.max2, Py.min2.
  destruct (x <? 1) eqn:H1.
  - destruct (0 <? x) eqn:H0; auto.
  - right. left. reflexivity.
Qed.

Lemma channel_hex_clamp (x : float) :
  exists s, Utils.channel_hex (Utils.clamp x) = Ret s.
Proof.
  unfold Utils.channel_hex.
  destruct (clamp_cases x) as [->|[->|(-> & H0 & H1)]].
  - eexists. vm_compute. reflexivity.
  - eexists. vm_compute. reflexivity.
  - destruct (int_mul_255 x H0 H1) as [n ->]. eexists. reflexivity.
Qed.

(** The hex converter returns for every list of components. *)
Lemma rgb_to_hex_returns (rgb : list float) :
  exists s, Utils.rgb_to_hex rgb = Ret s.
Proof.
  unfold Utils.rgb_to_hex.
  destruct rgb as [|r [|g [|b rest]]]; try (eexists; reflexivity).
  destruct ((1 <? r) || (1 <? g) || (1 <? b))%bool;
    match goal with
    | |- context [Utils.channel_hex (Utils.clamp ?a)] =>
        destruct (channel_hex_clamp a) as [? ->]
    end;
    match goal with
    | |- context [Utils.channel_hex (Utils.clamp ?a)] =>
        destruct (channel_hex_clamp a) as [? ->]
    end;
    match goal with
    | |- context [Utils.channel_hex (Utils.clamp ?a)] =>
        destruct (channel_hex_clamp a) as [? ->]
    end;
    eexists; reflexivity.
Qed.

End Binary64.

Section Magnitude.

Local Open Scope Z_scope.

Lemma Zdigits2_pos_lt (m k : Z) :
  0 <= m -> 0 <= k -> (Zdigits2 m <= k <-> m < 2 ^ k).
Proof.
  intros Hm Hk. destruct m as [|p|p]; [|clear Hm|lia].
  - cbn [Zdigits2]. split; intros _; [apply Z.pow_pos_nonneg; lia|assumption].
  - rewrite Zdigits2_log2.
    pose proof (Z.log2_lt_pow2 (Zpos p) k ltac:(lia)). lia.
Qed.

Lemma shr_1_div (mrs : shr_record) :
  0 <= shr_m mrs -> shr_m (shr_1 mrs) = shr_m mrs / 2.
Proof.
  destruct mrs as [m r s]. cbn [shr_m shr_1].
  destruct m as [|[p|p|]|p]; cbn [shr_m]; intros H.
  - reflexivity.
  - apply (Z.div_unique (Zpos p~1) 2 (Zpos p) 1); lia.
  - apply (Z.div_unique (Zpos p~0) 2 (Zpos p) 0); lia.
  - reflexivity.
  - lia.
Qed.

Lemma iter_shr_1_div (p : positive) :
  forall mrs, 0 <= shr_m mrs ->
              shr_m (SpecFloat.iter_pos shr_1 p mrs) = shr_m mrs / 2 ^ Zpos p.
Proof.
  induction p as [p IH|p IH|]; intros mrs H; cbn [SpecFloat.iter_pos].
  - pose proof (shr_1_bounds mrs H) as H1.
    pose proof (iter_shr_1_bounds p _ (proj1 H1)) as H2.
    rewrite IH, IH, shr_1_div by lia.
    rewrite !Z.div_div by (try apply Z.pow_pos_nonneg; lia).
    f_equal. replace (Zpos p~1) with (Zpos p + Zpos p + 1) by lia.
    rewrite !Z.pow_add_r by lia. change (2 ^ 1) with 2. ring.
  - pose proof (iter_shr_1_bounds p _ H) as H2.
    rewrite IH, IH by lia.
    rewrite !Z.div_div by (try apply Z.pow_pos_nonneg; lia).
    f_equal. replace (Zpos p~0) with (Zpos p + Zpos p) by lia.
    rewrite !Z.pow_add_r by lia. ring.
  - rewrite shr_1_div by assumption. reflexivity.
Qed.

Lemma Zdigits2_div_pow2 (m n : Z) :
  0 <= m -> 0 <= n -> Zdigits2 (m / 2 ^ n) <= Z.max 0 (Zdigits2 m - n).
Proof.
  intros Hm Hn.
  assert (Hq : 0 <= m / 2 ^ n) by (apply Z.div_pos; [lia|apply Z.pow_pos_nonneg; lia]).
  pose proof (Zdigits2_nonneg m) as Hd.
  apply Zdigits2_pos_lt; [assumption|lia|].
  apply Z.div_lt_upper_bound; [apply Z.pow_pos_nonneg; lia|].
  rewrite <- Z.pow_add_r by lia.
  assert (H : m < 2 ^ Zdigits2 m) by (apply Zdigits2_pos_lt; lia).
  eapply Z.lt_le_trans; [exact H|]. apply Z.pow_le_mono_r; lia.
Qed.

(** One [shr_fexp] step keeps the mantissa non-negative and does not
    raise the magnitude beyond the canonical exponent. *)
Lemma shr_fexp_mag (m e : Z) (l : location) :
  0 <= m ->
  let '(mrs, e') := shr_fexp prec emax m e l in
  0 <= shr_m mrs /\
  (e' = e \/ e' = fexp prec emax (Zdigits2 m + e)) /\
  Zdigits2 (shr_m mrs) + e' <= Z.max (Zdigits2 m + e) e' /\
  (0 < shr_m mrs -> Zdigits2 (shr_m mrs) + e' <= Zdigits2 m + e).
Proof.
  intros Hm. unfold shr_fexp, shr.
  destruct (fexp prec emax (Zdigits2 m + e) - e) as [|p|p] eqn:Hn.
  - rewrite shr_record_of_loc_m. repeat split; lia.
  - rewrite iter_shr_1_div by (rewrite shr_record_of_loc_m; assumption).
    rewrite shr_record_of_loc_m.
    assert (Hq : 0 <= m / 2 ^ Zpos p)
      by (apply Z.div_pos; [lia|apply Z.pow_pos_nonneg; lia]).
    pose proof (Zdigits2_div_pow2 m (Zpos p) Hm ltac:(lia)) as Hd.
    split; [assumption|]. split; [right; lia|]. split; [lia|].
    intros Hpos.
    assert (Hd' : 0 < Zdigits2 (m / 2 ^ Zpos p)).
    { destruct (m / 2 ^ Zpos p) as [|q|q]; cbn; lia. }
    lia.
  - rewrite shr_record_of_loc_m. repeat split; lia.
Qed.

(** Rounding a positive mantissa of magnitude at most [M] gives a number
    of magnitude at most [M + 1] (or the smallest one). *)
Lemma binary_round_aux_mag (sx : bool) (mx : positive) (ex : Z)
    (lx : location) (M : Z) :
  Zdigits2 (Zpos mx) + ex <= M -> M <= 972 ->
  mag_le (binary_round_aux prec emax sx (Zpos mx) ex lx)
    (Z.max M (-1074) + 1).
Proof.
  intros HM Hbound. unfold binary_round_aux.
  assert (Hd1 : 1 <= Zdigits2 (Zpos mx)) by (cbn; lia).
  pose proof (shr_fexp_mag (Zpos mx) ex lx ltac:(lia)) as H1.
  destruct (shr_fexp prec emax (Zpos mx) ex lx) as [mrs1 e1].
  destruct H1 as (Hm1 & He1 & Hmag1 & _).
  set (m2 := round_nearest_even (shr_m mrs1) (loc_of_shr_record mrs1)).
  pose proof (round_nearest_even_bounds (shr_m mrs1) (loc_of_shr_record mrs1))
    as Hm2. fold m2 in Hm2.
  assert (Hd2 : Zdigits2 m2 <= Zdigits2 (shr_m mrs1) + 1).
  { transitivity (Zdigits2 (shr_m mrs1 + 1)).
    - apply Zdigits2_mono. lia.
    - apply Zdigits2_succ. lia. }
  pose proof (shr_fexp_mag m2 e1 loc_Exact ltac:(lia)) as H2.
  destruct (shr_fexp prec emax m2 e1 loc_Exact) as [mrs2 e2].
  destruct H2 as (Hm3 & He2 & _ & Hmag3).
  pose proof (Zdigits2_nonneg m2) as Hd2'.
  pose proof (Zdigits2_nonneg (shr_m mrs1)) as Hd1'.
  unfold fexp, SpecFloat.emin, prec, emax in *.
  destruct (shr_m mrs2) as [|m3|m3] eqn:Hm; [exact I| |lia].
  specialize (Hmag3 ltac:(lia)).
  replace (e2 <=? 1024 - 53) with true by (symmetry; apply Z.leb_le; lia).
  cbn [mag_le]. lia.
Qed.

End Magnitude.

Section MagnitudeOps.

Local Open Scope Z_scope.

Lemma mag_le_mono (x : spec_float) (M M' : Z) :
  mag_le x M -> M <= M' -> mag_le x M'.
Proof. destruct x; cbn [mag_le]; auto; lia. Qed.

Lemma digits2_pos_iter_xO (d m : positive) :
  Zpos (digits2_pos (Pos.iter xO m d)) = Zpos (digits2_pos m) + Zpos d.
Proof.
  induction d as [|d IH] using Pos.peano_ind.
  - cbn [Pos.iter digits2_pos]. lia.
  - rewrite Pos.iter_succ. cbn [digits2_pos]. lia.
Qed.

(** Aligning a mantissa to a smaller exponent keeps its magnitude. *)
Lemma shl_align_mag (mx : positive) (ex ex' : Z) :
  Zdigits2 (Zpos (fst (shl_align mx ex ex'))) + snd (shl_align mx ex ex')
  = Zdigits2 (Zpos mx) + ex /\
  snd (shl_align mx ex ex') = Z.min ex ex'.
Proof.
  unfold shl_align. destruct (ex' - ex) as [|d|d] eqn:Hd; cbn [fst snd].
  - lia.
  - lia.
  - cbn [Zdigits2]. rewrite digits2_pos_iter_xO. lia.
Qed.

Lemma binary_round_mag (sx : bool) (mx : positive) (ex M : Z) :
  Zdigits2 (Zpos mx) + ex <= M -> M <= 972 ->
  mag_le (binary_round prec emax sx mx ex) (Z.max M (-1074) + 1).
Proof.
  intros HM Hb. unfold binary_round.
  pose proof (shl_align_mag mx ex
                (fexp prec emax (Zpos (digits2_pos mx) + ex))) as [H _].
  destruct (shl_align mx ex (fexp prec emax (Zpos (digits2_pos mx) + ex)))
    as [mz ez]. cbn [fst snd] in H.
  apply binary_round_aux_mag; lia.
Qed.

Lemma binary_normalize_mag (m e M : Z) (szero : bool) :
  Zdigits2 m + e <= M -> M <= 972 ->
  mag_le (binary_normalize prec emax m e szero) (Z.max M (-1074) + 1).
Proof.
  intros HM Hb. destruct m as [|p|p]; cbn [binary_normalize].
  - exact I.
  - apply binary_round_mag; assumption.
  - apply binary_round_mag; assumption.
Qed.

Lemma Zdigits2_abs (m : Z) : Zdigits2 m = Zdigits2 (Z.abs m).
Proof. destruct m; reflexivity. Qed.

(** The digits of a sum or difference of two aligned mantissas. *)
Lemma Zdigits2_combine (a b s k : Z) :
  0 <= a -> 0 <= b -> Z.abs s <= a + b ->
  Zdigits2 a <= k -> Zdigits2 b <= k -> 0 <= k ->
  Zdigits2 s <= k + 1.
Proof.
  intros Ha Hb Hs Hda Hdb Hk.
  rewrite Zdigits2_abs.
  apply Zdigits2_pos_lt; [lia|lia|].
  apply Zdigits2_pos_lt in Hda, Hdb; try lia.
  rewrite Z.pow_add_r by lia. change (2 ^ 1) with 2. lia.
Qed.

Lemma aligned_sum_mag (sx sy : bool) (mx my : positive) (ex ey M : Z)
    (s : Z) :
  Zdigits2 (Zpos mx) + ex <= M -> Zdigits2 (Zpos my) + ey <= M ->
  (let ez := Z.min ex ey in
   Z.abs s <= Zpos (fst (shl_align mx ex ez)) + Zpos (fst (shl_align my ey ez))) ->
  Zdigits2 s + Z.min ex ey <= M + 1.
Proof.
  intros Hx Hy Hs. cbv zeta in Hs.
  pose proof (shl_align_mag mx ex (Z.min ex ey)) as [Hax Hex].
  pose proof (shl_align_mag my ey (Z.min ex ey)) as [Hay Hey].
  set (a := Zpos (fst (shl_align mx ex (Z.min ex ey)))) in *.
  set (b := Zpos (fst (shl_align my ey (Z.min ex ey)))) in *.
  assert (H1 : 1 <= Zdigits2 a) by (subst a; cbn; lia).
  pose proof (Zdigits2_combine a b s (M - Z.min ex ey)
                ltac:(subst a; lia) ltac:(subst b; lia) Hs
                ltac:(lia) ltac:(lia) ltac:(lia)). lia.
Qed.

Lemma cond_Zopp_abs (b : bool) (m : Z) : Z.abs (cond_Zopp b m) = Z.abs m.
Proof. destruct b; cbn [cond_Zopp]; lia. Qed.

Lemma SFsub_mag (x y : spec_float) (M : Z) :
  mag_le x M -> mag_le y M -> -1074 <= M -> M + 1 <= 972 ->
  mag_le (SFsub prec emax x y) (M + 2).
Proof.
  intros Hx Hy Hlo Hhi.
  destruct x as [sx|sx| |sx mx ex]; try contradiction;
    destruct y as [sy|sy| |sy my ey]; try contradiction; cbn [SFsub].
  - destruct sx, sy; exact I.
  - cbn [mag_le] in *. lia.
  - cbn [mag_le] in *. lia.
  - cbn [mag_le] in Hx, Hy.
    eapply mag_le_mono;
      [apply (binary_normalize_mag _ _ (M + 1)); [|lia]|lia].
    apply (aligned_sum_mag sx sy mx my ex ey M); try assumption.
    cbv zeta. change (IntDef.Z.min ex ey) with (Z.min ex ey).
    pose proof (cond_Zopp_abs sx
                  (Zpos (fst (shl_align mx ex (Z.min ex ey))))).
    pose proof (cond_Zopp_abs sy
                  (Zpos (fst (shl_align my ey (Z.min ex ey))))).
    lia.
Qed.

Lemma SFadd_mag (x y : spec_float) (M : Z) :
  mag_le x M -> mag_le y M -> -1074 <= M -> M + 1 <= 972 ->
  mag_le (SFadd prec emax x y) (M + 2).
Proof.
  intros Hx Hy Hlo Hhi.
  destruct x as [sx|sx| |sx mx ex]; try contradiction;
    destruct y as [sy|sy| |sy my ey]; try contradiction; cbn [SFadd].
  - destruct sx, sy; exact I.
  - cbn [mag_le] in *. lia.
  - cbn [mag_le] in *. lia.
  - cbn [mag_le] in Hx, Hy.
    eapply mag_le_mono;
      [apply (binary_normalize_mag _ _ (M + 1)); [|lia]|lia].
    apply (aligned_sum_mag sx sy mx my ex ey M); try assumption.
    cbv zeta. change (IntDef.Z.min ex ey) with (Z.min ex ey).
    pose proof (cond_Zopp_abs sx
                  (Zpos (fst (shl_align mx ex (Z.min ex ey))))).
    pose proof (cond_Zopp_abs sy
                  (Zpos (fst (shl_align my ey (Z.min ex ey))))).
    lia.
Qed.

Lemma SFmul_mag (x y : spec_float) (Mx My M : Z) :
  mag_le x Mx -> mag_le y My -> Mx + My <= M -> -1074 <= M -> M <= 972 ->
  mag_le (SFmul prec emax x y) (M + 1).
Proof.
  intros Hx Hy HM Hlo Hhi.
  destruct x as [sx|sx| |sx mx ex]; try contradiction;
    destruct y as [sy|sy| |sy my ey]; try contradiction; cbn [SFmul];
    try exact I.
  cbn [mag_le] in Hx, Hy.
  eapply mag_le_mono; [apply (binary_round_aux_mag _ _ _ _ M); [|lia]|lia].
  pose proof (Zdigits2_mul mx my). lia.
Qed.

End MagnitudeOps.

Section UnitInterval.

Local Open Scope float_scope.

(** A component in [0.0, 1.0] is a number below 2. *)
Lemma in_unit_mag (x : float) : in_unit x = true -> mag_le (Prim2SF x) 1.
Proof.
  unfold in_unit. rewrite !FloatAxioms.leb_spec. intros H.
  apply andb_true_iff in H. destruct H as [H0 H1].
  pose proof (Prim2SF_valid x) as Hv.
  set (zero := Prim2SF 0) in H0. vm_compute in zero. subst zero.
  set (one := Prim2SF 1) in H1. vm_compute in one. subst one.
  destruct (Prim2SF x) as [s|s| |s m e]; cbn [mag_le].
  - exact I.
  - destruct s; discriminate.
  - discriminate H0.
  - destruct s; [discriminate H0|].
    pose proof (valid_digits _ _ _ Hv) as Hd.
    unfold SFleb, SFcompare in H1.
    destruct (Z.compare_spec e (-52)) as [He|He|He].
    + subst e. rewrite Pos.compare_cont_spec in H1.
      destruct (Pos.compare_spec m 4503599627370496) as [Hc|Hc|Hc];
        try discriminate H1.
      * subst m. vm_compute. discriminate.
      * assert (Hlt : (Zdigits2 (Zpos m) <= 52)%Z).
        { assert (Ha : (0 <= Zpos m)%Z) by apply Pos2Z.is_nonneg.
          assert (Hb : (0 <= 52)%Z) by discriminate.
          apply (proj2 (Zdigits2_pos_lt (Zpos m) 52 Ha Hb)).
          apply (Z.lt_le_trans _ 4503599627370496).
          - apply Pos2Z.pos_lt_pos. exact Hc.
          - vm_compute. discriminate. }
        clear - Hlt. lia.
    + lia.
    + discriminate H1.
Qed.

Lemma number_not_infinity (x : float) (M : Z) :
  mag_le (Prim2SF x) M -> is_infinity x = false.
Proof.
  intros H. unfold is_infinity.
  rewrite FloatAxioms.eqb_spec, FloatAxioms.abs_spec.
  set (inf := Prim2SF infinity). vm_compute in inf. subst inf.
  destruct (Prim2SF x); cbn [mag_le] in H; try contradiction; reflexivity.
Qed.

Lemma number_lt_infinity (x : float) (M : Z) :
  mag_le (Prim2SF x) M -> (x <? infinity) = true.
Proof.
  intros H. rewrite FloatAxioms.ltb_spec.
  set (inf := Prim2SF infinity). vm_compute in inf. subst inf.
  destruct (Prim2SF x); cbn [mag_le] in H; try contradiction; reflexivity.
Qed.

Lemma sub_mag (x y : float) (M : Z) :
  mag_le (Prim2SF x) M -> mag_le (Prim2SF y) M ->
  (-1074 <= M)%Z -> (M + 1 <= 972)%Z ->
  mag_le (Prim2SF (x - y)) (M + 2).
Proof. intros Hx Hy Hlo Hhi. rewrite sub_spec. apply SFsub_mag; assumption. Qed.

Lemma add_mag (x y : float) (M : Z) :
  mag_le (Prim2SF x) M -> mag_le (Prim2SF y) M ->
  (-1074 <= M)%Z -> (M + 1 <= 972)%Z ->
  mag_le (Prim2SF (x + y)) (M + 2).
Proof. intros Hx Hy Hlo Hhi. rewrite add_spec. apply SFadd_mag; assumption. Qed.

Lemma sqr_mag (x : float) (M : Z) :
  mag_le (Prim2SF x) M -> (-1074 <= 2 * M)%Z -> (2 * M <= 972)%Z ->
  exists y, Py.sqr x = Ret y /\ mag_le (Prim2SF y) (2 * M + 1).
Proof.
  intros Hx Hlo Hhi.
  assert (Hy : mag_le (Prim2SF (x * x)) (2 * M + 1)).
  { rewrite mul_spec. apply (SFmul_mag _ _ M M); auto. lia. }
  unfold Py.sqr. rewrite (number_not_infinity (x * x) _ Hy), andb_false_r.
  exists (x * x). split; [reflexivity|exact Hy].
Qed.

(** With all six components in [0.0, 1.0] the squared distance is
    computed without overflow and is below infinity. *)
Lemma dist_unit (r g b cr cg cb : float) :
  in_unit r = true -> in_unit g = true -> in_unit b = true ->
  in_unit cr = true -> in_unit cg = true -> in_unit cb = true ->
  exists d, Utils.dist r g b (cr, cg, cb) = Ret d /\ (d <? infinity) = true.
Proof.
  intros Hr Hg Hb Hcr Hcg Hcb.
  apply in_unit_mag in Hr, Hg, Hb, Hcr, Hcg, Hcb.
  destruct (sqr_mag (r - cr) 3) as (dr & Hdr & Mr);
    [apply (sub_mag r cr 1); auto; lia|lia|lia|].
  destruct (sqr_mag (g - cg) 3) as (dg & Hdg & Mg);
    [apply (sub_mag g cg 1); auto; lia|lia|lia|].
  destruct (sqr_mag (b - cb) 3) as (db & Hdb & Mb);
    [apply (sub_mag b cb 1); auto; lia|lia|lia|].
  unfold Utils.dist. rewrite Hdr, Hdg, Hdb. cbn [bind].
  eexists. split; [reflexivity|].
  apply (number_lt_infinity _ 11).
  apply (add_mag (dr + dg) db 9).
  - apply (add_mag dr dg 7); auto; lia.
  - eapply mag_le_mono; [exact Mb|lia].
  - lia.
  - lia.
Qed.

Lemma known_colors_in_unit :
  forallb (fun e => let '(cr, cg, cb) := snd e in
                    in_unit cr && in_unit cg && in_unit cb)
    Utils.known_colors = true.
Proof. vm_compute. reflexivity. Qed.

Lemma closest_loop_returns (r g b : float) (chromatic : bool)
    (table : list (string * (float * float * float))) :
  in_unit r = true -> in_unit g = true -> in_unit b = true ->
  forallb (fun e => let '(cr, cg, cb) := snd e in
                    in_unit cr && in_unit cg && in_unit cb) table = true ->
  forall min_dist cur,
    exists name, Utils.closest_loop r g b chromatic table min_dist cur
                 = Ret name.
Proof.
  intros Hr Hg Hb. induction table as [|[n [[cr cg] cb]] table IH];
    intros Ht min_dist cur; cbn [Utils.closest_loop].
  - eexists. reflexivity.
  - cbn [forallb snd] in Ht. apply andb_true_iff in Ht.
    destruct Ht as [Hc Ht]. apply andb_true_iff in Hc.
    destruct Hc as [Hc Hcb]. apply andb_true_iff in Hc.
    destruct Hc as [Hcr Hcg].
    destruct (chromatic && Utils.name_in n Utils.grayscale_names)%bool;
      [apply IH, Ht|].
    destruct (dist_unit r g b cr cg cb Hr Hg Hb Hcr Hcg Hcb)
      as (d & -> & _). cbn [bind].
    destruct (d <? min_dist); apply IH, Ht.
Qed.

End UnitInterval.

(** ** The color classifier *)

Section Classifier.

Import Utils.
Local Open Scope float_scope.

Lemma name_in_cons (x y : string) (l : list string) :
  name_in x (y :: l) = (String.eqb x y || name_in x l)%bool.
Proof. reflexivity. Qed.

(** With a chromatic input the loop either keeps the name it was given,
    and then no chromatic entry of the table was closer than [min_dist],
    or ends on a chromatic name of the table. *)
Lemma closest_loop_chromatic (r g b : float) :
  forall table min_dist cur name,
    closest_loop r g b true table min_dist cur = Ret name ->
    (name = cur /\
     forall n c d, In (n, c) table -> name_in n grayscale_names = false ->
                   dist r g b c = Ret d -> (d <? min_dist) = false)
    \/ (name_in name grayscale_names = false /\
        In name (map fst table)).
Proof.
  induction table as [|[n c] table IH]; intros min_dist cur name H.
  - injection H as <-. left. split; [reflexivity|]. intros ? ? ? [].
  - cbn [closest_loop] in H. rewrite andb_true_l in H.
    destruct (name_in n grayscale_names) eqn:Hgray.
    + destruct (IH _ _ _ H) as [[-> Hall]|[Hn Hin]].
      * left. split; [reflexivity|]. intros n' c' d [Heq|Hin] Hng Hd.
        -- injection Heq as <- <-. congruence.
        -- eauto.
      * right. split; [assumption|]. right. assumption.
    + destruct (dist r g b c) as [d|e] eqn:Hdist; cbn [bind] in H;
        [|discriminate].
      destruct (d <? min_dist) eqn:Hlt.
      * right. destruct (IH _ _ _ H) as [[-> _]|[Hn Hin]].
        -- split; [assumption|]. left. reflexivity.
        -- split; [assumption|]. right. assumption.
      * destruct (IH _ _ _ H) as [[-> Hall]|[Hn Hin]].
        -- left. split; [reflexivity|].
           intros n' c' d' [Heq|Hin] Hng Hd.
           ++ injection Heq as <- <-. congruence.
           ++ eauto.
        -- right. split; [assumption|]. right. assumption.
Qed.

Lemma rgb_to_color_name_eq (r g b : float) (rest : list float) :
  rgb_to_color_name (r :: g :: b :: rest) =
  closest_loop r g b (is_chromatic r g b) known_colors infinity "Gray".
Proof. reflexivity. Qed.

(** C2: the reference values of the classifier and of the hex converter.
    Yellow, red and green are classified as "Yellow", "Red" and "Green";
    for green both the "Green" and the later "Lime" entry are at distance
    zero, and the first one in table order wins; [1.0, 0.0, 0.0] is
    "#FF0000". *)
Theorem reference_values :
  rgb_to_color_name [1.0; 1.0; 0.0] = Ret "Yellow" /\
  rgb_to_color_name [1.0; 0.0; 0.0] = Ret "Red" /\
  rgb_to_color_name [0.0; 1.0; 0.0] = Ret "Green" /\
  (exists green lime,
      nth_error known_colors 2 = Some ("Green", green) /\
      nth_error known_colors 26 = Some ("Lime", lime) /\
      dist 0.0 1.0 0.0 green = Ret 0.0 /\
      dist 0.0 1.0 0.0 lime = Ret 0.0) /\
  rgb_to_hex [1.0; 0.0; 0.0] = Ret "#FF0000".
Proof.
  split; [vm_compute; reflexivity|].
  split; [vm_compute; reflexivity|].
  split; [vm_compute; reflexivity|].
  split; [|vm_compute; reflexivity].
  exists (0.0, 1.0, 0.0), (0.0, 1.0, 0.0).
  split; [reflexivity|]. split; [reflexivity|].
  split; vm_compute; reflexivity.
Qed.

(** C3, as stated, fails: with an infinite component the saturation is
    above 0.15, every squared distance is infinite, no candidate is
    strictly below the initial [min_dist], and the default "Gray" is
    returned. *)
Lemma chromatic_gray_at_infinity :
  (0.15 <? Py.max3 infinity 0.0 0.0 - Py.min3 infinity 0.0 0.0) = true /\
  rgb_to_color_name [infinity; 0.0; 0.0] = Ret "Gray".
Proof. split; vm_compute; reflexivity. Qed.

(** C3 (amended): for a triple whose saturation is above 0.15 and whose
    first three components are in [0.0, 1.0], the classifier returns a
    chromatic name of the table, never one of the four grayscale names.
    For arbitrary components it still never returns "Light Gray",
    "Black" or "White", and returns the initial default "Gray" only when
    no chromatic entry has a squared distance strictly below infinity. *)
Theorem chromatic_never_grayscale (r g b : float) (rest : list float) :
  (0.15 <? Py.max3 r g b - Py.min3 r g b) = true ->
  (in_unit r = true -> in_unit g = true -> in_unit b = true ->
   exists name,
     rgb_to_color_name (r :: g :: b :: rest) = Ret name /\
     name_in name grayscale_names = false /\
     In name (map fst known_colors)) /\
  (forall name,
      rgb_to_color_name (r :: g :: b :: rest) = Ret name ->
      (name_in name grayscale_names = false /\
       In name (map fst known_colors))
      \/ (name = "Gray" /\
          forall n c d, In (n, c) known_colors ->
                        name_in n grayscale_names = false ->
                        dist r g b c = Ret d -> (d <? infinity) = false)).
Proof.
  intros Hsat.
  assert (Hc : is_chromatic r g b = true) by exact Hsat.
  assert (Hgen : forall name,
             rgb_to_color_name (r :: g :: b :: rest) = Ret name ->
             (name_in name grayscale_names = false /\
              In name (map fst known_colors))
             \/ (name = "Gray" /\
                 forall n c d, In (n, c) known_colors ->
                               name_in n grayscale_names = false ->
                               dist r g b c = Ret d ->
                               (d <? infinity) = false)).
  { intros name H. rewrite rgb_to_color_name_eq, Hc in H.
    destruct (closest_loop_chromatic _ _ _ _ _ _ _ H) as [[-> Hall]|Hchrom].
    - right. split; [reflexivity|assumption].
    - left. assumption. }
  split; [|exact Hgen].
  intros Hr Hg Hb.
  destruct (closest_loop_returns r g b (is_chromatic r g b) known_colors
              Hr Hg Hb known_colors_in_unit infinity "Gray") as [name Hname].
  rewrite <- rgb_to_color_name_eq with (rest := rest) in Hname.
  exists name. split; [exact Hname|].
  destruct (Hgen name Hname) as [Hchrom|[_ Hall]]; [exact Hchrom|].
  exfalso.
  destruct (dist_unit r g b 1.0 1.0 0.0 Hr Hg Hb) as (d & Hd & Hlt);
    try reflexivity.
  rewrite (Hall "Yellow" (1.0, 1.0, 0.0) d) in Hlt;
    [discriminate Hlt|left; reflexivity|reflexivity|exact Hd].
Qed.

Lemma chromatic_never_grayscale_witness :
  (0.15 <? Py.max3 0.8 0.2 0.1 - Py.min3 0.8 0.2 0.1) = true /\
  in_unit 0.8 = true /\ in_unit 0.2 = true /\ in_unit 0.1 = true /\
  exists name,
    rgb_to_color_name [0.8; 0.2; 0.1] = Ret name /\
    name_in name grayscale_names = false /\
    In name (map fst known_colors).
Proof.
  assert (Hsat : (0.15 <? Py.max3 0.8 0.2 0.1 - Py.min3 0.8 0.2 0.1) = true)
    by (vm_compute; reflexivity).
  split; [exact Hsat|].
  split; [reflexivity|]. split; [reflexivity|]. split; [reflexivity|].
  exact (proj1 (chromatic_never_grayscale 0.8 0.2 0.1 [] Hsat)
           eq_refl eq_refl eq_refl).
Defined.

End Classifier.

(** ** Dicts of lists in insertion order *)

Section Dicts.

Context {K V : Type} (eqb : K -> K -> bool).
Hypothesis eqb_eq : forall x y, eqb x y = true <-> x = y.

Import Utils Grouping.

Lemma eqb_refl_true (x : K) : eqb x x = true.
Proof. apply eqb_eq. reflexivity. Qed.

Lemma eqb_false_neq (x y : K) : eqb x y = false <-> x <> y.
Proof.
  split.
  - intros H E. apply eqb_eq in E. congruence.
  - intros H. destruct (eqb x y) eqn:E; [|reflexivity].
    apply eqb_eq in E. contradiction.
Qed.

Lemma lookup_dict_append (d : list (K * list V)) (k : K) (v : V) (k' : K) :
  lookup eqb (dict_append eqb d k v) k' =
  if eqb k k' then lookup eqb d k' ++ [v] else lookup eqb d k'.
Proof.
  induction d as [|[k0 vs] d IH]; cbn [dict_append lookup].
  - destruct (eqb k k'); reflexivity.
  - destruct (eqb k0 k) eqn:E0; cbn [lookup].
    + apply eqb_eq in E0. subst k0. destruct (eqb k k'); reflexivity.
    + rewrite IH. destruct (eqb k0 k') eqn:E1; [|reflexivity].
      apply eqb_eq in E1. subst k'. rewrite (proj2 (eqb_false_neq k k0));
        [reflexivity|]. apply eqb_false_neq in E0. congruence.
Qed.

Lemma lookup_group_loop (key : V -> K) (hs : list V) :
  forall d k,
    lookup eqb (group_loop eqb key hs d) k =
    lookup eqb d k ++ filter (fun h => eqb (key h) k) hs.
Proof.
  unfold group_loop.
  induction hs as [|h hs IH]; intros d k; cbn [fold_left filter].
  - rewrite app_nil_r. reflexivity.
  - rewrite IH, lookup_dict_append.
    destruct (eqb (key h) k); [rewrite <- app_assoc|]; reflexivity.
Qed.

Lemma keys_dict_append (d : list (K * list V)) (k : K) (v : V) :
  map fst (dict_append eqb d k v) =
  if existsb (fun k0 => eqb k0 k) (map fst d) then map fst d
  else map fst d ++ [k].
Proof.
  induction d as [|[k0 vs] d IH]; cbn [dict_append map fst existsb app].
  - reflexivity.
  - destruct (eqb k0 k) eqn:E0; cbn [map fst orb].
    + reflexivity.
    + rewrite IH. destruct (existsb _ (map fst d)); reflexivity.
Qed.

Lemma keys_group_loop (key : V -> K) (hs : list V) :
  forall d,
    map fst (group_loop eqb key hs d) =
    first_seen_from eqb (map key hs) (map fst d).
Proof.
  unfold group_loop, first_seen_from.
  induction hs as [|h hs IH]; intros d; cbn [fold_left map].
  - reflexivity.
  - rewrite IH, keys_dict_append. reflexivity.
Qed.

Lemma existsb_eqb_In (k : K) (ks : list K) :
  existsb (fun k0 => eqb k0 k) ks = true <-> In k ks.
Proof.
  rewrite existsb_exists. split.
  - intros (x & Hin & E). apply eqb_eq in E. subst. assumption.
  - intros H. exists k. split; [assumption|apply eqb_refl_true].
Qed.

Lemma first_seen_from_spec (ks : list K) :
  forall acc,
    NoDup acc ->
    NoDup (first_seen_from eqb ks acc) /\
    forall k, In k (first_seen_from eqb ks acc) <-> In k acc \/ In k ks.
Proof.
  unfold first_seen_from.
  induction ks as [|k ks IH]; intros acc Hnd; cbn [fold_left].
  - split; [assumption|]. intros k. cbn. tauto.
  - destruct (existsb (fun k0 => eqb k0 k) acc) eqn:E.
    + apply existsb_eqb_In in E. destruct (IH acc Hnd) as [H1 H2].
      split; [assumption|]. intros k'. rewrite H2. cbn.
      split; [tauto|]. intros [H|[<-|H]]; tauto.
    + assert (Hk : ~ In k acc).
      { intros H. apply existsb_eqb_In in H. congruence. }
      assert (Hnd' : NoDup (acc ++ [k])).
      { apply NoDup_app; [assumption|repeat constructor; intros []|].
        intros x Hx [<-|[]]. contradiction. }
      destruct (IH _ Hnd') as [H1 H2].
      split; [assumption|]. intros k'. rewrite H2, in_app_iff. cbn. tauto.
Qed.

Lemma In_lookup (d : list (K * list V)) (k : K) (g : list V) :
  NoDup (map fst d) -> In (k, g) d -> lookup eqb d k = g.
Proof.
  induction d as [|[k0 vs] d IH]; cbn [map fst lookup]; intros Hnd Hin.
  - destruct Hin.
  - apply NoDup_cons_iff in Hnd. destruct Hnd as [Hk0 Hnd].
    destruct Hin as [E|Hin].
    + injection E as -> ->. rewrite eqb_refl_true. reflexivity.
    + rewrite (proj2 (eqb_false_neq k0 k)); [apply IH; assumption|].
      intros ->. apply Hk0. apply (in_map fst) in Hin. exact Hin.
Qed.

Lemma lookup_In (d : list (K * list V)) (k : K) :
  In k (map fst d) -> In (k, lookup eqb d k) d.
Proof.
  induction d as [|[k0 vs] d IH]; cbn [map fst lookup]; intros Hin.
  - destruct Hin.
  - destruct (eqb k0 k) eqn:E.
    + apply eqb_eq in E. subst. left. reflexivity.
    + right. apply IH. destruct Hin as [->|Hin]; [|assumption].
      rewrite eqb_refl_true in E. discriminate.
Qed.

(** The dict built from the empty one: its keys are the keys met, each
    once, in the order of their first occurrence, and the list under a
    key is the sublist of the source with that key. *)
Lemma group_loop_spec (key : V -> K) (hs : list V) :
  let d := group_loop eqb key hs [] in
  map fst d = first_seen_from eqb (map key hs) [] /\
  NoDup (map fst d) /\
  (forall k, In k (map fst d) <-> In k (map key hs)) /\
  (forall k g, In (k, g) d <->
               g = filter (fun h => eqb (key h) k) hs /\ g <> []).
Proof.
  intros d.
  assert (Hkeys : map fst d = first_seen_from eqb (map key hs) []).
  { subst d. apply keys_group_loop. }
  destruct (first_seen_from_spec (map key hs) [] (NoDup_nil K)) as [Hnd Hin].
  rewrite <- Hkeys in Hnd, Hin.
  assert (Hin' : forall k, In k (map fst d) <-> In k (map key hs)).
  { intros k. rewrite Hin. cbn. tauto. }
  assert (Hlook : forall k, lookup eqb d k = filter (fun h => eqb (key h) k) hs).
  { intros k. subst d. rewrite lookup_group_loop. reflexivity. }
  repeat split; try assumption; try apply Hin'.
  - apply (In_lookup d k g Hnd) in H. rewrite <- H. apply Hlook.
  - apply (in_map fst) in H as Hk. cbn in Hk. apply Hin' in Hk.
    apply in_map_iff in Hk. destruct Hk as (h & Hh & Hhs).
    apply (In_lookup d k g Hnd) in H. rewrite <- H, Hlook.
    intros Hnil.
    assert (Hf : In h (filter (fun h => eqb (key h) k) hs)).
    { apply filter_In. split; [assumption|]. apply eqb_eq. assumption. }
    rewrite Hnil in Hf. destruct Hf.
  - intros [-> Hne]. rewrite <- Hlook. apply lookup_In. apply Hin'.
    destruct (filter (fun h => eqb (key h) k) hs) as [|h l] eqn:Hf;
      [contradiction|].
    assert (Hh : In h (filter (fun h => eqb (key h) k) hs))
      by (rewrite Hf; left; reflexivity).
    apply filter_In in Hh. destruct Hh as [Hh E]. apply eqb_eq in E.
    subst k. apply in_map. assumption.
Qed.

End Dicts.

Section Regrouping.

Context {K V : Type} (eqb : K -> K -> bool).
Hypothesis eqb_eq : forall x y, eqb x y = true <-> x = y.

Import Utils.

Lemma dict_append_last (d : list (K * list V)) (k : K) (vs : list V) (v : V) :
  ~ In k (map fst d) ->
  dict_append eqb (d ++ [(k, vs)]) k v = d ++ [(k, vs ++ [v])].
Proof.
  induction d as [|[k0 vs0] d IH]; cbn [map fst app dict_append]; intros Hk.
  - rewrite (eqb_refl_true eqb eqb_eq). reflexivity.
  - rewrite (proj2 (eqb_false_neq eqb eqb_eq k0 k)) by (intros ->; apply Hk; left; reflexivity).
    rewrite IH; [reflexivity|]. intros H. apply Hk. right. assumption.
Qed.

Lemma dict_append_new (d : list (K * list V)) (k : K) (v : V) :
  ~ In k (map fst d) -> dict_append eqb d k v = d ++ [(k, [v])].
Proof.
  induction d as [|[k0 vs0] d IH]; cbn [map fst app dict_append]; intros Hk.
  - reflexivity.
  - rewrite (proj2 (eqb_false_neq eqb eqb_eq k0 k)) by (intros ->; apply Hk; left; reflexivity).
    rewrite IH; [reflexivity|]. intros H. apply Hk. right. assumption.
Qed.

Lemma group_loop_same_key (key : V -> K) (k : K) (g : list V) :
  (forall h, In h g -> key h = k) ->
  forall d vs, ~ In k (map fst d) ->
    group_loop eqb key g (d ++ [(k, vs)]) = d ++ [(k, vs ++ g)].
Proof.
  unfold group_loop.
  induction g as [|h g IH]; intros Hkey d vs Hk; cbn [fold_left].
  - rewrite app_nil_r. reflexivity.
  - rewrite (Hkey h (or_introl eq_refl)), dict_append_last by assumption.
    rewrite IH by (auto using in_cons). rewrite <- app_assoc. reflexivity.
Qed.

Lemma group_loop_block (key : V -> K) (k : K) (g : list V) (d : list (K * list V)) :
  g <> [] -> (forall h, In h g -> key h = k) -> ~ In k (map fst d) ->
  group_loop eqb key g d = d ++ [(k, g)].
Proof.
  destruct g as [|h g]; [contradiction|]. intros _ Hkey Hk.
  change (group_loop eqb key (h :: g) d)
    with (group_loop eqb key g (dict_append eqb d (key h) h)).
  rewrite (Hkey h (or_introl eq_refl)), dict_append_new by assumption.
  apply group_loop_same_key; auto using in_cons.
Qed.

(** Grouping the groups of a dict again, one after the other, rebuilds
    the dict. *)
Lemma regroup (key : V -> K) (m : list (K * list V)) :
  forall d,
    NoDup (map fst d ++ map fst m) ->
    (forall k g, In (k, g) m -> g <> [] /\ forall h, In h g -> key h = k) ->
    group_loop eqb key (List.concat (map snd m)) d = d ++ m.
Proof.
  induction m as [|[k g] m IH]; intros d Hnd Hm; cbn [map snd List.concat].
  - rewrite app_nil_r. reflexivity.
  - destruct (Hm k g (or_introl eq_refl)) as [Hne Hkey].
    unfold group_loop. rewrite fold_left_app.
    fold (group_loop eqb key g d).
    fold (group_loop eqb key (List.concat (map snd m)) (group_loop eqb key g d)).
    rewrite (group_loop_block key k g d Hne Hkey).
    + rewrite IH.
      * rewrite <- app_assoc. reflexivity.
      * rewrite map_app, <- app_assoc. exact Hnd.
      * intros k' g' H. apply Hm. right. assumption.
    + cbn [map fst] in Hnd. apply NoDup_remove_2 in Hnd.
      intros H. apply Hnd. apply in_or_app. left. assumption.
Qed.

End Regrouping.

(** ** The grouping engine *)

Section GroupHighlights.

Import Utils.

Lemma group_highlights_page (hs : list Highlight) :
  group_highlights hs "page" = group_loop String.eqb page_key hs [].
Proof. reflexivity. Qed.

Lemma group_highlights_color (hs : list Highlight) :
  group_highlights hs "color" = group_loop String.eqb color_key hs [].
Proof. reflexivity. Qed.

Lemma group_highlights_other (hs : list Highlight) (group_by : string) :
  group_by <> "page" -> group_by <> "color" -> group_highlights hs group_by = [].
Proof.
  intros Hp Hc. unfold group_highlights.
  apply String.eqb_neq in Hp, Hc. rewrite Hp, Hc. reflexivity.
Qed.

Lemma group_loop_stable (key : Highlight -> string) (hs : list Highlight) :
  let m := group_loop String.eqb key hs [] in
  group_loop String.eqb key (List.concat (map snd m)) [] = m /\
  NoDup (map fst m) /\
  (forall k g, In (k, g) m <->
               g = filter (fun h => String.eqb (key h) k) hs /\ g <> []).
Proof.
  intros m.
  destruct (group_loop_spec String.eqb String.eqb_eq key hs)
    as (_ & Hnd & _ & Hgroups). fold m in Hnd, Hgroups.
  split; [|split; assumption].
  apply (regroup String.eqb String.eqb_eq key m []).
  - exact Hnd.
  - intros k g H. apply Hgroups in H. destruct H as [-> Hne].
    split; [assumption|]. intros h Hh. apply filter_In in Hh.
    apply String.eqb_eq. tauto.
Qed.

(** C8: grouping by page or by color is deterministic and stable.  Two
    calls on the same list give the same mapping, and so does grouping
    again the groups laid out one after the other; the keys are distinct,
    and the list under a key is exactly the sublist of the source list
    with that key, in source order, and is never empty. *)
Theorem grouping_stable (hs : list Highlight) (group_by : string) :
  group_by = "page" \/ group_by = "color" ->
  let key := if String.eqb group_by "page" then page_key else color_key in
  let m := group_highlights hs group_by in
  (forall m1 m2, m1 = group_highlights hs group_by ->
                 m2 = group_highlights hs group_by -> m1 = m2) /\
  group_highlights (List.concat (map snd m)) group_by = m /\
  NoDup (map fst m) /\
  (forall k g, In (k, g) m <->
               g = filter (fun h => String.eqb (key h) k) hs /\ g <> []).
Proof.
  intros Hsel key m.
  split; [intros m1 m2 -> ->; reflexivity|].
  destruct Hsel as [-> | ->]; subst key m.
  - rewrite !group_highlights_page. apply group_loop_stable.
  - rewrite !group_highlights_color. apply group_loop_stable.
Qed.

(** C10, as stated, fails for the empty string: it is neither "page" nor
    "color", and the formatter, which tests the truth value of
    [group_by], attaches no grouped view at all. *)
Lemma empty_group_by_attaches_nothing :
  "" <> "page" /\ "" <> "color" /\
  grouped_highlights
    (format_json_output (mkResult "a.pdf" "/a.pdf" "2026" 1 0 []) false
       (Some "")) <> Some [].
Proof. repeat split; discriminate. Qed.

(** C10 (amended): for a selector other than "page" and "color" the
    grouping function returns the empty mapping without raising; the
    JSON formatter given such a selector attaches an empty grouped view
    when the selector is a non-empty string, and no grouped view when it
    is the empty string. *)
Theorem unknown_selector_groups_nothing (hs : list Highlight)
    (group_by : string) :
  group_by <> "page" -> group_by <> "color" ->
  group_highlights hs group_by = [] /\
  forall data pretty,
    grouped_highlights (format_json_output data pretty (Some group_by)) =
    if PyStr.truthy group_by then Some [] else None.
Proof.
  intros Hp Hc. split; [apply group_highlights_other; assumption|].
  intros data pretty. unfold format_json_output. cbn [grouped_highlights].
  destruct (PyStr.truthy group_by); [|reflexivity].
  rewrite group_highlights_other by assumption. reflexivity.
Qed.

End GroupHighlights.

(** ** [sorted] on distinct keys *)

Section SortedKeys.

Context {K : Type} (ltb : K -> K -> bool).
Hypothesis ltb_asym : forall x y, ltb x y = true -> ltb y x = false.
Hypothesis ltb_trans :
  forall x y z, ltb x y = true -> ltb y z = true -> ltb x z = true.
Hypothesis ltb_total : forall x y, ltb x y = false -> ltb y x = false -> x = y.

Import Grouping.

Local Abbreviation lt := (lt_of ltb).
Local Abbreviation le := (le_of ltb).

Lemma le_trans (x y z : K) : le x y -> le y z -> le x z.
Proof.
  unfold le_of. intros Hxy Hyz.
  destruct (ltb z x) eqn:Hzx; [|reflexivity].
  destruct (ltb x y) eqn:Hlt.
  - rewrite (ltb_trans z x y Hzx Hlt) in Hyz. discriminate.
  - rewrite (ltb_total x y Hlt Hxy) in Hzx. congruence.
Qed.

Lemma insert_perm (x : K) (l : list K) : Permutation (insert ltb x l) (x :: l).
Proof.
  induction l as [|y l IH]; cbn [insert].
  - reflexivity.
  - destruct (ltb x y); [reflexivity|].
    rewrite IH. apply perm_swap.
Qed.

Lemma insert_sorted (x : K) (l : list K) :
  StronglySorted le l -> StronglySorted le (insert ltb x l).
Proof.
  induction l as [|y l IH]; cbn [insert]; intros Hs.
  - repeat constructor.
  - apply StronglySorted_inv in Hs. destruct Hs as [Hs Hy].
    destruct (ltb x y) eqn:Hlt.
    + constructor; [constructor; assumption|].
      constructor; [apply ltb_asym, Hlt|].
      apply Forall_forall. intros z Hz.
      apply (le_trans x y z); [apply ltb_asym, Hlt|].
      rewrite Forall_forall in Hy. auto.
    + constructor; [auto|].
      apply Forall_forall. intros z Hz.
      apply (Permutation_in _ (insert_perm x l)) in Hz.
      destruct Hz as [<-|Hz]; [exact Hlt|].
      rewrite Forall_forall in Hy. auto.
Qed.

Lemma sorted_from (l : list K) :
  forall acc,
    StronglySorted le acc ->
    StronglySorted le (fold_left (fun acc x => insert ltb x acc) l acc) /\
    Permutation (fold_left (fun acc x => insert ltb x acc) l acc) (l ++ acc).
Proof.
  induction l as [|x l IH]; intros acc Hs; cbn [fold_left app].
  - split; [assumption|reflexivity].
  - destruct (IH _ (insert_sorted x acc Hs)) as [H1 H2].
    split; [assumption|].
    rewrite H2, insert_perm. symmetry. apply Permutation_middle.
Qed.

Lemma sorted_perm (l : list K) : Permutation (sorted ltb l) l.
Proof.
  destruct (sorted_from l [] (SSorted_nil le)) as [_ H].
  rewrite app_nil_r in H. exact H.
Qed.

(** On distinct keys the result of [sorted] is strictly ascending. *)
Lemma sorted_ascending (l : list K) :
  NoDup l -> StronglySorted lt (sorted ltb l).
Proof.
  intros Hnd.
  assert (Hnd' : NoDup (sorted ltb l)).
  { apply (Permutation_NoDup (l := l)); [|assumption].
    symmetry. apply sorted_perm. }
  destruct (sorted_from l [] (SSorted_nil le)) as [Hs _].
  fold (sorted ltb l) in Hs.
  induction Hs as [|x s Hs IH Hx]; [constructor|].
  apply NoDup_cons_iff in Hnd'. destruct Hnd' as [Hnx Hnd'].
  constructor; [auto|].
  rewrite Forall_forall in *. intros y Hy. unfold lt_of.
  destruct (ltb x y) eqn:Hlt; [reflexivity|].
  exfalso. apply Hnx. rewrite (ltb_total x y Hlt (Hx y Hy)). assumption.
Qed.

End SortedKeys.

Section SortedGroups.

Context {K : Type} (eqb ltb : K -> K -> bool).
Hypothesis eqb_eq : forall x y, eqb x y = true <-> x = y.
Hypothesis ltb_asym : forall x y, ltb x y = true -> ltb y x = false.
Hypothesis ltb_trans :
  forall x y z, ltb x y = true -> ltb y z = true -> ltb x z = true.
Hypothesis ltb_total : forall x y, ltb x y = false -> ltb y x = false -> x = y.

Import Utils Grouping.

Lemma sorted_groups_keys (key : Highlight -> K) (hs : list Highlight) :
  map fst (sorted_groups eqb ltb key hs) =
  sorted ltb (map fst (group_loop eqb key hs [])).
Proof.
  unfold sorted_groups. rewrite map_map. cbn [fst]. apply map_id.
Qed.

(** The loop [for k in sorted(d.keys())] meets the keys in strictly
    ascending order, each key of the source once, with the sublist of the
    source under that key. *)
Lemma sorted_groups_spec (key : Highlight -> K) (hs : list Highlight) :
  StronglySorted (fun x y => ltb x y = true)
    (map fst (sorted_groups eqb ltb key hs)) /\
  (forall k, In k (map fst (sorted_groups eqb ltb key hs)) <->
             In k (map key hs)) /\
  (forall k g, In (k, g) (sorted_groups eqb ltb key hs) ->
               g = filter (fun h => eqb (key h) k) hs /\ g <> []).
Proof.
  destruct (group_loop_spec eqb eqb_eq key hs) as (_ & Hnd & Hkeys & Hgroups).
  rewrite sorted_groups_keys.
  split; [apply sorted_ascending; assumption|].
  split.
  - intros k. rewrite <- Hkeys. split; apply Permutation_in;
      [|symmetry]; apply sorted_perm; assumption.
  - intros k g H. unfold sorted_groups in H. apply in_map_iff in H.
    destruct H as (k' & E & Hk'). injection E as -> <-.
    apply (Permutation_in _ (sorted_perm ltb ltb_asym ltb_trans ltb_total _))
      in Hk'.
    apply Hgroups. apply lookup_In; assumption.
Qed.

End SortedGroups.

Section KeyOrders.

Lemma Z_ltb_asym (x y : Z) : (x <? y)%Z = true -> (y <? x)%Z = false.
Proof. lia. Qed.

Lemma Z_ltb_trans (x y z : Z) :
  (x <? y)%Z = true -> (y <? z)%Z = true -> (x <? z)%Z = true.
Proof. lia. Qed.

Lemma Z_ltb_total (x y : Z) :
  (x <? y)%Z = false -> (y <? x)%Z = false -> x = y.
Proof. lia. Qed.

Lemma ascii_compare_N (a b : ascii) :
  Ascii.compare a b = N.compare (N_of_ascii a) (N_of_ascii b).
Proof. reflexivity. Qed.

Lemma string_compare_refl (s : string) : String.compare s s = Eq.
Proof.
  induction s as [|a s IH]; cbn [String.compare]; [reflexivity|].
  rewrite ascii_compare_N, N.compare_refl. exact IH.
Qed.

Lemma string_compare_trans (x : string) :
  forall y z, String.compare x y = Lt -> String.compare y z = Lt ->
              String.compare x z = Lt.
Proof.
  induction x as [|a x IH]; intros [|b y] [|c z]; cbn [String.compare];
    try discriminate; try reflexivity.
  rewrite !ascii_compare_N.
  destruct (N.compare_spec (N_of_ascii a) (N_of_ascii b)) as [Hab|Hab|Hab];
    try discriminate;
    destruct (N.compare_spec (N_of_ascii b) (N_of_ascii c)) as [Hbc|Hbc|Hbc];
    try discriminate; intros H1 H2.
  - rewrite Hab, Hbc, N.compare_refl. eauto.
  - rewrite Hab. apply N.compare_lt_iff in Hbc. rewrite Hbc. reflexivity.
  - rewrite <- Hbc. apply N.compare_lt_iff in Hab. rewrite Hab. reflexivity.
  - assert (H : (N_of_ascii a < N_of_ascii c)%N) by lia.
    apply N.compare_lt_iff in H. rewrite H. reflexivity.
Qed.

Lemma string_ltb_asym (x y : string) :
  String.ltb x y = true -> String.ltb y x = false.
Proof.
  unfold String.ltb. rewrite (String.compare_antisym y x).
  destruct (String.compare x y); cbn; congruence.
Qed.

Lemma string_ltb_trans (x y z : string) :
  String.ltb x y = true -> String.ltb y z = true -> String.ltb x z = true.
Proof.
  unfold String.ltb. intros H1 H2.
  rewrite (string_compare_trans x y z); [reflexivity| |].
  - destruct (String.compare x y); congruence.
  - destruct (String.compare y z); congruence.
Qed.

Lemma string_ltb_total (x y : string) :
  String.ltb x y = false -> String.ltb y x = false -> x = y.
Proof.
  unfold String.ltb. rewrite (String.compare_antisym y x).
  destruct (String.compare x y) eqn:E; cbn; try discriminate.
  intros _ _. apply String.compare_eq_iff. assumption.
Qed.

End KeyOrders.

(** ** The exporters *)

Section ListFacts.

Lemma StronglySorted_impl {A : Type} (R R' : A -> A -> Prop) (l : list A) :
  (forall x y, R x y -> R' x y) -> StronglySorted R l -> StronglySorted R' l.
Proof.
  intros HR. induction 1 as [|x l Hs IH Hx]; constructor; [assumption|].
  eapply Forall_impl; [|exact Hx]. intros y. apply HR.
Qed.

Lemma Forall2_map_eq {A B C : Type} (f : B -> C) (g : A -> C)
    (xs : list A) (ys : list B) :
  Forall2 (fun x y => f y = g x) xs ys -> map f ys = map g xs.
Proof. induction 1; cbn; congruence. Qed.

Lemma Forall2_Forall_r {A B : Type} (P : A -> B -> Prop) (Q : B -> Prop)
    (xs : list A) (ys : list B) :
  (forall x y, P x y -> Q y) -> Forall2 P xs ys -> Forall Q ys.
Proof. intros H. induction 1; constructor; eauto. Qed.

Lemma Forall2_impl {A B : Type} (P Q : A -> B -> Prop)
    (xs : list A) (ys : list B) :
  (forall x y, P x y -> Q x y) -> Forall2 P xs ys -> Forall2 Q xs ys.
Proof. intros H. induction 1; constructor; eauto. Qed.

Lemma Forall2_map_left {A A' B : Type} (f : A -> A') (P : A' -> B -> Prop)
    (xs : list A) (ys : list B) :
  Forall2 (fun x y => P (f x) y) xs ys -> Forall2 P (map f xs) ys.
Proof. induction 1; cbn; constructor; assumption. Qed.

(** A list comprehension whose body returns on every element returns,
    element by element. *)
Lemma mapM_spec {A B : Type} (f : A -> exc B) (P : A -> B -> Prop)
    (xs : list A) :
  (forall x, exists y, f x = Ret y /\ P x y) ->
  exists ys, mapM f xs = Ret ys /\ Forall2 P xs ys.
Proof.
  intros Hf. induction xs as [|x xs (ys & Hys & HP)]; cbn [mapM].
  - exists []. split; [reflexivity|constructor].
  - destruct (Hf x) as (y & Hy & Hxy). rewrite Hy, Hys. cbn [bind].
    exists (y :: ys). split; [reflexivity|constructor; assumption].
Qed.

(** Every result of a [mapM] that returns comes from an element of the
    list. *)
Lemma mapM_In {A B : Type} (f : A -> exc B) (xs : list A) :
  forall ys y,
    mapM f xs = Ret ys -> In y ys -> exists x, In x xs /\ f x = Ret y.
Proof.
  induction xs as [|x xs IH]; intros ys y; cbn [mapM].
  - intros H. injection H as <-. intros [].
  - destruct (f x) as [y0|e] eqn:Hx; cbn [bind]; [|discriminate].
    destruct (mapM f xs) as [ys0|e]; cbn [bind]; [|discriminate].
    intros H. injection H as <-. intros [<-|Hin].
    + exists x. split; [left; reflexivity|exact Hx].
    + destruct (IH ys0 y eq_refl Hin) as (x' & Hx' & Hfx').
      exists x'. split; [right; exact Hx'|exact Hfx'].
Qed.

End ListFacts.

Section GroupOrders.

Import Grouping.

Lemma by_page_spec (hs : list Highlight) :
  ascending_pages (map fst (by_page hs)) /\
  (forall p g, In (p, g) (by_page hs) ->
               g = filter (fun h => (h_page h =? p)%Z) hs /\ g <> []).
Proof.
  destruct (sorted_groups_spec Z.eqb Z.ltb Z.eqb_eq Z_ltb_asym Z_ltb_trans
              Z_ltb_total h_page hs) as (Hs & _ & Hg).
  split; [|exact Hg].
  eapply StronglySorted_impl; [|exact Hs]. intros x y. apply Z.ltb_lt.
Qed.

Lemma by_color_spec (hs : list Highlight) :
  ascending_names (map fst (by_color hs)) /\
  (forall c g, In (c, g) (by_color hs) ->
               g = filter (fun h => String.eqb (h_color_name h) c) hs /\
               g <> []).
Proof.
  destruct (sorted_groups_spec String.eqb String.ltb String.eqb_eq
              string_ltb_asym string_ltb_trans string_ltb_total
              h_color_name hs) as (Hs & _ & Hg).
  split; [exact Hs|exact Hg].
Qed.

End GroupOrders.

Section MindMap.

Variable lib : Library.

Import XMind Grouping.

Lemma gmap_spec {A B : Type} (f : A -> Gen B) (P : A -> B -> Prop)
    (xs : list A) :
  (forall x n, exists y n', f x n = Ret (y, n') /\ P x y) ->
  forall n, exists ys n', gmap f xs n = Ret (ys, n') /\ Forall2 P xs ys.
Proof.
  intros Hf. induction xs as [|x xs IH]; intros n; cbn [gmap].
  - exists [], n. split; [reflexivity|constructor].
  - unfold gbind. destruct (Hf x n) as (y & n1 & Hy & Hxy). rewrite Hy.
    destruct (IH n1) as (ys & n2 & Hys & HP). rewrite Hys.
    exists (y :: ys), n2. split; [reflexivity|constructor; assumption].
Qed.

Lemma add_highlight_topic_spec (h : Highlight) (n : nat) :
  exists t n', _add_highlight_topic lib h n = Ret (t, n') /\
               topic_title t = h_text h.
Proof.
  unfold _add_highlight_topic, gbind, lift, _generate_id, gret.
  destruct (rgb_to_hex_returns (h_color h)) as [hex ->].
  eexists _, _. split; reflexivity.
Qed.

Lemma color_in_page_topic_spec (g : string * list Highlight) (n : nat) :
  exists t n', color_in_page_topic lib g n = Ret (t, n') /\
               topic_title t = str_title lib (fst g).
Proof.
  destruct g as [c chs].
  unfold color_in_page_topic, gbind, lift, _generate_id, gret.
  destruct (rgb_to_hex_returns (first_color chs)) as [hex ->].
  destruct (gmap_spec (_add_highlight_topic lib)
              (fun h t => topic_title t = h_text h) chs
              add_highlight_topic_spec (S n)) as (leaves & n' & -> & _).
  eexists _, _. split; reflexivity.
Qed.

Lemma page_in_color_topic_spec (g : Z * list Highlight) (n : nat) :
  exists t n', page_in_color_topic lib g n = Ret (t, n') /\
               topic_title t = page_title (fst g).
Proof.
  destruct g as [p phs].
  unfold page_in_color_topic, gbind, _generate_id, gret.
  destruct (gmap_spec (_add_highlight_topic lib)
              (fun h t => topic_title t = h_text h) phs
              add_highlight_topic_spec (S n)) as (leaves & n' & -> & _).
  eexists _, _. split; reflexivity.
Qed.

Lemma page_topic_spec (g : Z * list Highlight) (n : nat) :
  exists t n',
    page_topic lib g n = Ret (t, n') /\
    topic_title t = page_title (fst g) /\
    exists names,
      ascending_names names /\
      map topic_title (topic_children t) = map (str_title lib) names.
Proof.
  destruct g as [p phs].
  unfold page_topic, gbind, _generate_id, gret.
  destruct (gmap_spec (color_in_page_topic lib)
              (fun g t => topic_title t = str_title lib (fst g))
              (by_color phs) color_in_page_topic_spec (S n))
    as (cs & n' & -> & Hcs).
  eexists _, _. split; [reflexivity|]. split; [reflexivity|].
  exists (map fst (by_color phs)). split; [apply by_color_spec|].
  cbn [topic_children]. rewrite map_map. apply Forall2_map_eq. exact Hcs.
Qed.

Lemma color_topic_spec (g : string * list Highlight) (n : nat) :
  exists t n',
    color_topic lib g n = Ret (t, n') /\
    topic_title t = str_title lib (fst g) /\
    exists pages,
      ascending_pages pages /\
      map topic_title (topic_children t) = map page_title pages.
Proof.
  destruct g as [c chs].
  unfold color_topic, gbind, lift, _generate_id, gret.
  destruct (rgb_to_hex_returns (first_color chs)) as [hex ->].
  destruct (gmap_spec (page_in_color_topic lib)
              (fun g t => topic_title t = page_title (fst g))
              (by_page chs) page_in_color_topic_spec (S n))
    as (ps & n' & -> & Hps).
  eexists _, _. split; [reflexivity|]. split; [reflexivity|].
  exists (map fst (by_page chs)). split; [apply by_page_spec|].
  cbn [topic_children]. rewrite map_map. apply Forall2_map_eq. exact Hps.
Qed.

Lemma placeholder_returns (n : nat) :
  exists topics n', placeholder lib n = Ret (topics, n').
Proof. eexists _, _. reflexivity. Qed.

Lemma add_page_topics_spec (hs : list Highlight) (n : nat) :
  exists topics n',
    _add_page_topics lib hs n = Ret (topics, n') /\
    (hs <> [] -> xmind_page_order lib topics).
Proof.
  destruct hs as [|h hs'].
  - destruct (placeholder_returns n) as (topics & n' & H).
    exists topics, n'. split; [exact H|]. intros []. reflexivity.
  - set (hs := h :: hs'). change (_add_page_topics lib hs n)
      with (gmap (page_topic lib) (by_page hs) n).
    destruct (gmap_spec (page_topic lib)
                (fun g t => topic_title t = page_title (fst g) /\
                            exists names,
                              ascending_names names /\
                              map topic_title (topic_children t) =
                              map (str_title lib) names)
                (by_page hs) page_topic_spec n) as (topics & n' & -> & H).
    exists topics, n'. split; [reflexivity|]. intros _.
    exists (map fst (by_page hs)). split; [apply by_page_spec|]. split.
    + rewrite map_map. apply Forall2_map_eq.
      eapply Forall2_impl; [|exact H]. cbn. tauto.
    + eapply Forall2_Forall_r; [|exact H]. cbn. tauto.
Qed.

Lemma add_color_topics_spec (hs : list Highlight) (n : nat) :
  exists topics n',
    _add_color_topics lib hs n = Ret (topics, n') /\
    (hs <> [] -> xmind_color_order lib topics).
Proof.
  destruct hs as [|h hs'].
  - destruct (placeholder_returns n) as (topics & n' & H).
    exists topics, n'. split; [exact H|]. intros []. reflexivity.
  - set (hs := h :: hs'). change (_add_color_topics lib hs n)
      with (gmap (color_topic lib) (by_color hs) n).
    destruct (gmap_spec (color_topic lib)
                (fun g t => topic_title t = str_title lib (fst g) /\
                            exists pages,
                              ascending_pages pages /\
                              map topic_title (topic_children t) =
                              map page_title pages)
                (by_color hs) color_topic_spec n) as (topics & n' & -> & H).
    exists topics, n'. split; [reflexivity|]. intros _.
    exists (map fst (by_color hs)). split; [apply by_color_spec|]. split.
    + rewrite map_map. apply Forall2_map_eq.
      eapply Forall2_impl; [|exact H]. cbn. tauto.
    + eapply Forall2_Forall_r; [|exact H]. cbn. tauto.
Qed.

Lemma create_content_returns (data : ExtractionResult) (group_by : string)
    (n : nat) :
  exists content n', _create_content lib data group_by n = Ret (content, n').
Proof.
  unfold _create_content, gbind, _generate_id, gret.
  destruct (String.eqb group_by "page").
  - destruct (add_page_topics_spec (highlights data) (S n))
      as (topics & n' & -> & _). eexists _, _. reflexivity.
  - destruct (add_color_topics_spec (highlights data) (S n))
      as (topics & n' & -> & _). eexists _, _. reflexivity.
Qed.

End MindMap.

Section MindMapExport.

Variable lib : Library.

Import XMind.

(** C9: with a [group_by] other than "page" and "color" the mind-map
    exporter raises ValueError and leaves the file system as it was, so
    an output path that did not exist still does not; with "page" or
    "color" it returns, for every extraction result, as soon as the
    archive can be created at the output path, and the archive with its
    three members is then stored there. *)
Theorem export_rejects_invalid_group_by (data : ExtractionResult)
    (fs : FileSystem) (output_path : string) (group_by : string) :
  (group_by <> "page" -> group_by <> "color" ->
   exists msg,
     export lib data fs output_path group_by = (Raise (ValueError msg), fs) /\
     (files fs output_path = None ->
      files (snd (export lib data fs output_path group_by)) output_path
      = None)) /\
  (group_by = "page" \/ group_by = "color" ->
   can_create fs output_path = true ->
   exists content,
     export lib data fs output_path group_by =
     (Ret tt,
      write fs output_path
        [ ("content.json", ContentJson content);
          ("manifest.json", ManifestJson _create_manifest);
          ("metadata.json", MetadataJson (_create_metadata data)) ])).
Proof.
  split.
  - intros Hp Hc. unfold export.
    apply String.eqb_neq in Hp, Hc. cbn [Utils.name_in existsb].
    rewrite Hp, Hc. cbn [orb negb]. eexists. split; [reflexivity|].
    cbn [snd]. tauto.
  - intros Hsel Hcan. unfold export.
    assert (Hin : Utils.name_in group_by ["page"; "color"] = true).
    { destruct Hsel as [-> | ->]; reflexivity. }
    rewrite Hin. cbn [negb].
    destruct (create_content_returns lib data group_by 0%nat)
      as (content & n' & ->).
    rewrite Hcan. exists content. reflexivity.
Qed.

End MindMapExport.

Section Markdown.

Variable lib : Library.

Import Notion Grouping.

Lemma quote_line_returns (h : Highlight) :
  exists q, quote_line h = Ret q /\ True.
Proof.
  unfold quote_line. destruct (rgb_to_hex_returns (h_color h)) as [hex ->].
  eexists. split; [reflexivity|exact I].
Qed.

Lemma inner_lines_spec (heading : string) (hs : list Highlight) :
  exists block,
    inner_lines heading hs = Ret block /\
    exists quoted qs, mapM quote_line quoted = Ret qs /\ block = heading :: qs.
Proof.
  unfold inner_lines.
  destruct (mapM_spec quote_line (fun _ _ => True) hs quote_line_returns)
    as (qs & Hqs & _).
  rewrite Hqs. cbn [bind]. eexists. split; [reflexivity|].
  exists hs, qs. split; [assumption|reflexivity].
Qed.

Lemma page_section_spec (g : Z * list Highlight) :
  exists section,
    page_section lib g = Ret section /\
    exists names blocks,
      ascending_names names /\
      section = page_heading "###" (fst g) :: List.concat blocks /\
      md_blocks (color_heading lib "####") names blocks.
Proof.
  destruct g as [p phs]. unfold page_section.
  destruct (mapM_spec
              (fun c => inner_lines (color_heading lib "####" (fst c)) (snd c))
              (fun c block => exists quoted qs,
                   mapM quote_line quoted = Ret qs /\
                   block = color_heading lib "####" (fst c) :: qs)
              (by_color phs)
              (fun c => inner_lines_spec _ (snd c)))
    as (blocks & -> & Hblocks).
  cbn [bind]. eexists. split; [reflexivity|].
  exists (map fst (by_color phs)), blocks.
  split; [apply by_color_spec|]. split; [reflexivity|].
  apply Forall2_map_left. exact Hblocks.
Qed.

Lemma color_section_spec (g : string * list Highlight) :
  exists section,
    color_section lib g = Ret section /\
    exists pages blocks,
      ascending_pages pages /\
      section = color_heading lib "###" (fst g) :: List.concat blocks /\
      md_blocks (page_heading "####") pages blocks.
Proof.
  destruct g as [c chs]. unfold color_section.
  destruct (mapM_spec
              (fun p => inner_lines (page_heading "####" (fst p)) (snd p))
              (fun p block => exists quoted qs,
                   mapM quote_line quoted = Ret qs /\
                   block = page_heading "####" (fst p) :: qs)
              (by_page chs)
              (fun p => inner_lines_spec _ (snd p)))
    as (blocks & -> & Hblocks).
  cbn [bind]. eexists. split; [reflexivity|].
  exists (map fst (by_page chs)), blocks.
  split; [apply by_page_spec|]. split; [reflexivity|].
  apply Forall2_map_left. exact Hblocks.
Qed.

Lemma markdown_lines_page (data : ExtractionResult) :
  exists lines,
    markdown_lines lib data "page" = Ret lines /\
    (highlights data <> [] -> md_page_order lib data lines).
Proof.
  unfold markdown_lines. destruct (highlights data) as [|h hs'] eqn:Hhs.
  - eexists. split; [reflexivity|]. intros []. reflexivity.
  - set (hs := h :: hs'). cbn [String.eqb Ascii.eqb Bool.eqb].
    destruct (mapM_spec (page_section lib)
                (fun g section => exists names blocks,
                     ascending_names names /\
                     section = page_heading "###" (fst g)
                               :: List.concat blocks /\
                     md_blocks (color_heading lib "####") names blocks)
                (by_page hs) page_section_spec) as (sections & -> & Hs).
    cbn [bind]. eexists. split; [reflexivity|]. intros _.
    exists (map fst (by_page hs)), sections.
    split; [apply by_page_spec|]. split; [reflexivity|].
    apply Forall2_map_left. exact Hs.
Qed.

Lemma markdown_lines_color (data : ExtractionResult) (group_by : string) :
  group_by <> "page" ->
  exists lines,
    markdown_lines lib data group_by = Ret lines /\
    (highlights data <> [] -> md_color_order lib data lines).
Proof.
  intros Hg. apply String.eqb_neq in Hg.
  unfold markdown_lines. destruct (highlights data) as [|h hs'] eqn:Hhs.
  - eexists. split; [reflexivity|]. intros []. reflexivity.
  - set (hs := h :: hs'). rewrite Hg.
    destruct (mapM_spec (color_section lib)
                (fun g section => exists pages blocks,
                     ascending_pages pages /\
                     section = color_heading lib "###" (fst g)
                               :: List.concat blocks /\
                     md_blocks (page_heading "####") pages blocks)
                (by_color hs) color_section_spec) as (sections & -> & Hs).
    cbn [bind]. eexists. split; [reflexivity|]. intros _.
    exists (map fst (by_color hs)), sections.
    split; [apply by_color_spec|]. split; [reflexivity|].
    apply Forall2_map_left. exact Hs.
Qed.

End Markdown.

Section JsonKeys.

Import Utils.

Lemma of_int_inj (a b : Z) : PyStr.of_int a = PyStr.of_int b -> a = b.
Proof.
  unfold PyStr.of_int. intros H.
  assert (Hd : forall z, NilZero.int_of_string
                           (NilZero.string_of_int (Z.to_int z))
                         = Some (Z.to_int z)).
  { intros z. apply NilZero.isi; destruct z; cbn; try discriminate;
      intros E; injection E as E; revert E; apply DecimalPos.Unsigned.to_uint_nonnil. }
  pose proof (Hd a) as Ha. rewrite H, Hd in Ha. injection Ha as Ha.
  rewrite <- (DecimalZ.of_to a), <- (DecimalZ.of_to b). congruence.
Qed.

Lemma first_seen_from_map {A B : Type} (eqa : A -> A -> bool)
    (eqb : B -> B -> bool) (f : A -> B)
    (eqa_eq : forall x y, eqa x y = true <-> x = y)
    (eqb_eq : forall x y, eqb x y = true <-> x = y)
    (f_inj : forall x y, f x = f y -> x = y) (ks : list A) :
  forall acc,
    first_seen_from eqb (map f ks) (map f acc) =
    map f (first_seen_from eqa ks acc).
Proof.
  unfold first_seen_from.
  induction ks as [|k ks IH]; intros acc; cbn [map fold_left].
  - reflexivity.
  - assert (E : existsb (fun k0 => eqb k0 (f k)) (map f acc) =
                existsb (fun k0 => eqa k0 k) acc).
    { induction acc as [|a acc IHacc]; cbn [map existsb]; [reflexivity|].
      rewrite IHacc. f_equal.
      destruct (eqa a k) eqn:Ea.
      - apply eqa_eq in Ea. subst. apply eqb_eq. reflexivity.
      - destruct (eqb (f a) (f k)) eqn:Eb; [|reflexivity].
        apply eqb_eq, f_inj, eqa_eq in Eb. congruence. }
    rewrite E. destruct (existsb (fun k0 => eqa k0 k) acc).
    + apply IH.
    + rewrite <- IH, map_app. reflexivity.
Qed.

(** The first occurrences of a non-decreasing list of page numbers are
    strictly ascending. *)
Lemma first_seen_from_sorted (ks : list Z) :
  forall acc,
    StronglySorted Z.lt acc ->
    StronglySorted Z.le ks ->
    (forall a k, In a acc -> In k ks -> (a <= k)%Z) ->
    StronglySorted Z.lt (first_seen_from Z.eqb ks acc).
Proof.
  unfold first_seen_from.
  induction ks as [|k ks IH]; intros acc Hacc Hks Hle; cbn [fold_left].
  - assumption.
  - apply StronglySorted_inv in Hks. destruct Hks as [Hks Hk].
    rewrite Forall_forall in Hk.
    destruct (existsb (fun k0 => (k0 =? k)%Z) acc) eqn:E.
    + apply IH; [assumption|assumption|].
      intros a k' Ha Hk'. apply Hle; [assumption|right; assumption].
    + assert (Hnk : ~ In k acc).
      { intros H. apply (existsb_eqb_In Z.eqb Z.eqb_eq) in H. congruence. }
      apply IH; [|assumption|].
      * clear IH E. induction Hacc as [|a acc Hacc IHacc Ha].
        -- repeat constructor.
        -- cbn [app]. constructor.
           ++ apply IHacc.
              ** intros a' k' Ha' Hk'. apply Hle; [right|]; assumption.
              ** intros H. apply Hnk. right. assumption.
           ++ apply Forall_app. split; [assumption|].
              constructor; [|constructor].
              assert (a <= k)%Z by (apply Hle; left; reflexivity).
              assert (a <> k) by (intros ->; apply Hnk; left; reflexivity).
              lia.
      * intros a k' Ha Hk'. apply in_app_iff in Ha.
        destruct Ha as [Ha|[<-|[]]].
        -- apply Hle; [assumption|right; assumption].
        -- apply Hk. assumption.
Qed.

Lemma json_keys_color (data : ExtractionResult) (pretty : bool) :
  json_keys (format_json_output data pretty (Some "color")) =
  first_seen String.eqb (map h_color_name (highlights data)).
Proof.
  unfold json_keys, format_json_output. cbn [PyStr.truthy grouped_highlights].
  rewrite group_highlights_color.
  apply (keys_group_loop String.eqb color_key (highlights data) []).
Qed.

Lemma json_keys_page (data : ExtractionResult) (pretty : bool) :
  json_keys (format_json_output data pretty (Some "page")) =
  map PyStr.of_int (first_seen Z.eqb (map h_page (highlights data))).
Proof.
  unfold json_keys, format_json_output. cbn [PyStr.truthy grouped_highlights].
  rewrite group_highlights_page.
  rewrite (keys_group_loop String.eqb page_key (highlights data) []).
  unfold first_seen, page_key. cbn [map].
  rewrite <- (map_map h_page PyStr.of_int).
  apply (first_seen_from_map Z.eqb String.eqb PyStr.of_int Z.eqb_eq
           String.eqb_eq of_int_inj _ []).
Qed.

End JsonKeys.

Section GroupKeyOrder.

Import Utils.

(** C7, as stated, fails for the JSON grouped view by color: grouping
    the result of an extraction run that meets a yellow highlight before
    a red one lists "Yellow" before "Red". *)
Lemma json_color_keys_not_ascending :
  Sample.run Sample.extractor_two
  = Ret (Sample.result_of [Sample.h_yellow; Sample.h_red]) /\
  json_keys
    (format_json_output (Sample.result_of [Sample.h_yellow; Sample.h_red])
       false (Some "color"))
  = ["Yellow"; "Red"] /\
  ~ ascending_names ["Yellow"; "Red"].
Proof.
  split; [vm_compute; reflexivity|].
  split; [vm_compute; reflexivity|].
  intros H. apply StronglySorted_inv in H. destruct H as [_ H].
  apply Forall_inv in H. vm_compute in H. discriminate H.
Qed.

(** C7 (amended): for an extraction result with highlights, the mind-map
    and the Markdown formatter iterate over the group keys in ascending
    order, pages numerically and color names lexicographically, at the
    outer and at the inner level; the JSON grouped view lists its keys in
    the order of their first occurrence among the highlights, which for
    the page keys of highlights in page order is ascending numeric order,
    and for color names is not sorted. *)
Theorem group_keys_order (lib : Library) (data : ExtractionResult) :
  highlights data <> [] ->
  (forall n, exists topics n',
      XMind._add_page_topics lib (highlights data) n = Ret (topics, n') /\
      xmind_page_order lib topics) /\
  (forall n, exists topics n',
      XMind._add_color_topics lib (highlights data) n = Ret (topics, n') /\
      xmind_color_order lib topics) /\
  (exists lines,
      Notion.markdown_lines lib data "page" = Ret lines /\
      md_page_order lib data lines) /\
  (exists lines,
      Notion.markdown_lines lib data "color" = Ret lines /\
      md_color_order lib data lines) /\
  (forall pretty,
      json_keys (format_json_output data pretty (Some "color")) =
      first_seen String.eqb (map h_color_name (highlights data))) /\
  (forall pretty,
      json_keys (format_json_output data pretty (Some "page")) =
      map PyStr.of_int (first_seen Z.eqb (map h_page (highlights data))) /\
      (in_page_order (highlights data) ->
       ascending_pages (first_seen Z.eqb (map h_page (highlights data))))).
Proof.
  intros Hne. repeat apply conj.
  - intros n. destruct (add_page_topics_spec lib (highlights data) n)
      as (topics & n' & H & Ho). exists topics, n'. auto.
  - intros n. destruct (add_color_topics_spec lib (highlights data) n)
      as (topics & n' & H & Ho). exists topics, n'. auto.
  - destruct (markdown_lines_page lib data) as (lines & H & Ho).
    exists lines. auto.
  - destruct (markdown_lines_color lib data "color") as (lines & H & Ho);
      [discriminate|]. exists lines. auto.
  - apply json_keys_color.
  - intros pretty. split; [apply json_keys_page|].
    intros Hord. apply first_seen_from_sorted.
    + constructor.
    + exact Hord.
    + intros a k [].
Qed.

Lemma group_keys_order_witness :
  highlights (Sample.result_of [Sample.h_yellow; Sample.h_red]) <> [] /\
  exists lines,
    Notion.markdown_lines Sample.lib
      (Sample.result_of [Sample.h_yellow; Sample.h_red]) "page" = Ret lines /\
    md_page_order Sample.lib
      (Sample.result_of [Sample.h_yellow; Sample.h_red]) lines.
Proof.
  assert (H : highlights (Sample.result_of [Sample.h_yellow; Sample.h_red])
              <> []) by discriminate.
  split; [exact H|].
  exact (proj1 (proj2 (proj2 (group_keys_order Sample.lib _ H)))).
Defined.

Lemma grouping_stable_witness :
  ("page" = "page" \/ "page" = "color") /\
  NoDup (map fst (group_highlights [Sample.h_yellow; Sample.h_red] "page")).
Proof.
  split; [left; reflexivity|].
  exact (proj1 (proj2 (proj2
           (grouping_stable [Sample.h_yellow; Sample.h_red] "page"
              (or_introl eq_refl))))).
Defined.

Lemma unknown_selector_groups_nothing_witness :
  "invalid" <> "page" /\ "invalid" <> "color" /\
  group_highlights [Sample.h_yellow; Sample.h_red] "invalid" = [].
Proof.
  assert (Hp : "invalid" <> "page") by discriminate.
  assert (Hc : "invalid" <> "color") by discriminate.
  split; [exact Hp|]. split; [exact Hc|].
  exact (proj1 (unknown_selector_groups_nothing
                  [Sample.h_yellow; Sample.h_red] "invalid" Hp Hc)).
Defined.

Lemma export_rejects_invalid_group_by_witness :
  "invalid" <> "page" /\ "invalid" <> "color" /\
  exists msg,
    XMind.export Sample.lib (Sample.result_of [Sample.h_yellow; Sample.h_red])
      Sample.empty_disk "test.xmind" "invalid"
    = (Raise (ValueError msg), Sample.empty_disk) /\
    (XMind.files Sample.empty_disk "test.xmind" = None ->
     XMind.files
       (snd (XMind.export Sample.lib
               (Sample.result_of [Sample.h_yellow; Sample.h_red])
               Sample.empty_disk "test.xmind" "invalid")) "test.xmind"
     = None).
Proof.
  assert (Hp : "invalid" <> "page") by discriminate.
  assert (Hc : "invalid" <> "color") by discriminate.
  split; [exact Hp|]. split; [exact Hc|].
  exact (proj1 (export_rejects_invalid_group_by Sample.lib
                  (Sample.result_of [Sample.h_yellow; Sample.h_red])
                  Sample.empty_disk "test.xmind" "invalid") Hp Hc).
Defined.

End GroupKeyOrder.

(** ** Text recovery *)

Section TextRecovery.

Import Extractor TextRecoverySpec.






End TextRecovery.

(** ** The annotation normalizer *)

Section Normalizer.

Import Extractor.

Local Open Scope float_scope.

Lemma strip_idempotent_aux_r (s : string) :
  PyStr.rstrip (PyStr.rstrip s) = PyStr.rstrip s.
Proof.
  induction s as [|c s IH]; cbn [PyStr.rstrip]; [reflexivity|].
  destruct (PyStr.rstrip s) as [|c' r] eqn:E.
  - destruct (PyStr.isspace c) eqn:Hc; cbn [PyStr.rstrip]; [reflexivity|].
    rewrite Hc. reflexivity.
  - cbn [PyStr.rstrip]. cbn [PyStr.rstrip] in IH.
    destruct (PyStr.rstrip r) as [|c'' r'] eqn:E'.
    + destruct (PyStr.isspace c'); [discriminate IH|].
      injection IH as <-. reflexivity.
    + rewrite IH. reflexivity.
Qed.

Lemma lstrip_no_leading_space (s : string) :
  no_leading_space (PyStr.lstrip s).
Proof.
  induction s as [|c s IH]; cbn [PyStr.lstrip]; [exact I|].
  destruct (PyStr.isspace c) eqn:Hc; [exact IH|exact Hc].
Qed.

Lemma lstrip_fixed (s : string) : no_leading_space s -> PyStr.lstrip s = s.
Proof.
  destruct s as [|c s]; cbn; [reflexivity|]. intros ->. reflexivity.
Qed.

Lemma rstrip_no_leading_space (s : string) :
  no_leading_space s -> no_leading_space (PyStr.rstrip s).
Proof.
  destruct s as [|c s]; cbn [PyStr.rstrip no_leading_space]; [trivial|].
  intros Hc. destruct (PyStr.rstrip s); [rewrite Hc|]; exact Hc.
Qed.

Lemma strip_idempotent (s : string) :
  PyStr.strip (PyStr.strip s) = PyStr.strip s.
Proof.
  unfold PyStr.strip.
  rewrite (lstrip_fixed (PyStr.rstrip (PyStr.lstrip s))).
  - apply strip_idempotent_aux_r.
  - apply rstrip_no_leading_space, lstrip_no_leading_space.
Qed.

Lemma truthy_nonempty (s : string) : PyStr.truthy s = true <-> s <> "".
Proof. destruct s; cbn; split; congruence. Qed.

Lemma three_components_length (v : ColorValue) (cs : list float) :
  three_components v = Ret cs -> List.length cs = 3%nat.
Proof.
  unfold three_components.
  destruct v as [| |l]; try discriminate.
  - intros H. injection H as <-. reflexivity.
  - intros H. injection H as <-.
    destruct l as [|a [|b [|c rest]]]; reflexivity.
Qed.

Lemma in_unit_constants :
  in_unit 0.0 = true /\ in_unit 1.0 = true.
Proof. split; reflexivity. Qed.

Lemma three_components_in_unit (v : ColorValue) (cs : list float) :
  three_components v = Ret cs -> value_in_unit v = true ->
  forallb in_unit cs = true.
Proof.
  unfold three_components.
  destruct v as [| |l]; try discriminate.
  - intros H _. injection H as <-. reflexivity.
  - intros H. injection H as <-. cbn [value_in_unit].
    destruct l as [|a [|b [|c rest]]]; cbn [forallb]; intros Hu.
    + reflexivity.
    + cbn. apply andb_true_iff in Hu. destruct Hu as [-> _]. reflexivity.
    + cbn [List.length Nat.ltb Nat.leb Nat.eqb repeat Nat.sub app firstn
           forallb].
      apply andb_true_iff in Hu. destruct Hu as [-> Hu].
      apply andb_true_iff in Hu. destruct Hu as [-> _]. reflexivity.
    + cbn [List.length Nat.ltb Nat.leb firstn forallb].
      apply andb_true_iff in Hu. destruct Hu as [-> Hu].
      apply andb_true_iff in Hu. destruct Hu as [-> Hu].
      apply andb_true_iff in Hu. destruct Hu as [-> _]. reflexivity.
Qed.

Lemma resolve_color_in_unit (c : Colors) :
  colors_in_unit c = true -> value_in_unit (resolve_color c) = true.
Proof.
  unfold colors_in_unit, resolve_color. intros H.
  apply andb_true_iff in H. destruct H as [Hs Hf].
  destruct (stroke c) as [[| |l]|]; destruct (fill c) as [[| |l']|];
    try reflexivity; assumption.
Qed.

(** What a record returned by the normalizer is made of. *)
Lemma extract_highlight_data_inv (page : Page) (annot : Annot)
    (page_num : Z) (h : Highlight) :
  _extract_highlight_data page annot page_num = Some h ->
  exists c r i,
    colors annot = Ret c /\ rect annot = Ret r /\ info annot = Ret i /\
    PyStr.strip (_get_highlight_text page annot) <> "" /\
    three_components (resolve_color c) = Ret (h_color h) /\
    Utils.rgb_to_color_name (h_color h) = Ret (h_color_name h) /\
    h = mkHighlight page_num (PyStr.strip (_get_highlight_text page annot))
          (h_color h) (h_color_name h) [x0 r; y0 r; x1 r; y1 r]
          (author_of i) (creationDate i).
Proof.
  unfold _extract_highlight_data, highlight_data.
  destruct (PyStr.truthy (_get_highlight_text page annot)) eqn:Ht;
    cbn [negb orb]; [|discriminate].
  destruct (PyStr.truthy (PyStr.strip (_get_highlight_text page annot)))
    eqn:Hs; cbn [negb]; [|discriminate].
  destruct (colors annot) as [c|e]; cbn [bind]; [|discriminate].
  destruct (three_components (resolve_color c)) as [color|e] eqn:Hc;
    cbn [bind]; [|discriminate].
  destruct (rect annot) as [r|e]; cbn [bind]; [|discriminate].
  destruct (info annot) as [i|e]; cbn [bind]; [|discriminate].
  destruct (Utils.rgb_to_color_name color) as [name|e] eqn:Hn;
    cbn [bind]; [|discriminate].
  intros H. injection H as <-. cbn [h_color h_color_name].
  exists c, r, i. repeat split; try assumption.
  apply truthy_nonempty. exact Hs.
Qed.

(** C4 (defect of the code): a highlight both of whose color entries
    hold None does not get the default yellow.  The [fill] lookup finds
    the key and returns None, [len(None)] raises, and the annotation is
    dropped although its text reads fine; the same annotation without a
    [fill] key is kept, with the color yellow. *)
Theorem fill_none_not_defaulted :
  colors Sample.annot_colorless = Ret (mkColors (Some PyNone) (Some PyNone)) /\
  resolve_color (mkColors (Some PyNone) (Some PyNone)) = PyNone /\
  three_components PyNone = Raise TypeError /\
  PyStr.strip (_get_highlight_text Sample.page_two Sample.annot_colorless)
  = "First highlight" /\
  _extract_highlight_data Sample.page_two Sample.annot_colorless 1 = None /\
  resolve_color (mkColors (Some PyNone) None) = PySeq [1.0; 1.0; 0.0] /\
  _extract_highlight_data Sample.page_two Sample.annot_stroke_none 1
  = Some Sample.h_stroke_none.
Proof.
  split; [reflexivity|]. split; [reflexivity|]. split; [reflexivity|].
  split; [vm_compute; reflexivity|]. split; [vm_compute; reflexivity|].
  split; [reflexivity|]. vm_compute. reflexivity.
Qed.

(** The color of a normalized highlight as the code resolves it: the
    stroke entry when its value is not None; else the value of the fill
    entry when the key is in the mapping, whatever it holds; else the
    default yellow.  Of the resolved value, a mapping gives yellow, an
    empty sequence black, one component is taken for all three channels,
    two are padded with a trailing 0.0, more than three are cut to the
    first three, and None raises, which drops the annotation. *)
Theorem color_resolution_cases (c : Colors) :
  (forall v, stroke c = Some v -> v <> PyNone -> resolve_color c = v) /\
  (stroke c = None \/ stroke c = Some PyNone ->
   forall v, fill c = Some v -> resolve_color c = v) /\
  (stroke c = None \/ stroke c = Some PyNone ->
   fill c = None -> resolve_color c = PySeq [1.0; 1.0; 0.0]) /\
  three_components PyDict = Ret [1.0; 1.0; 0.0] /\
  three_components (PySeq []) = Ret [0.0; 0.0; 0.0] /\
  (forall a, three_components (PySeq [a]) = Ret [a; a; a]) /\
  (forall a b, three_components (PySeq [a; b]) = Ret [a; b; 0.0]) /\
  (forall a b d rest,
      three_components (PySeq (a :: b :: d :: rest)) = Ret [a; b; d]) /\
  three_components PyNone = Raise TypeError /\
  (forall page annot page_num,
      colors annot = Ret c ->
      match _extract_highlight_data page annot page_num with
      | Some h => three_components (resolve_color c) = Ret (h_color h)
      | None => True
      end) /\
  (forall page annot page_num,
      colors annot = Ret c -> resolve_color c = PyNone ->
      _extract_highlight_data page annot page_num = None).
Proof.
  repeat apply conj.
  - intros v Hs Hv. unfold resolve_color. rewrite Hs.
    destruct v; [contradiction|reflexivity|reflexivity].
  - intros Hs v Hf. unfold resolve_color.
    destruct Hs as [-> | ->]; rewrite Hf; reflexivity.
  - intros Hs Hf. unfold resolve_color.
    destruct Hs as [-> | ->]; rewrite Hf; reflexivity.
  - reflexivity.
  - reflexivity.
  - reflexivity.
  - reflexivity.
  - reflexivity.
  - reflexivity.
  - intros page annot page_num Hc.
    destruct (_extract_highlight_data page annot page_num) as [h|] eqn:H;
      [|exact I].
    apply extract_highlight_data_inv in H.
    destruct H as (c' & r & i & Hc' & _ & _ & _ & Hcol & _).
    rewrite Hc in Hc'. injection Hc' as <-. exact Hcol.
  - intros page annot page_num Hc Hnone.
    destruct (_extract_highlight_data page annot page_num) as [h|] eqn:H;
      [|reflexivity].
    apply extract_highlight_data_inv in H.
    destruct H as (c' & r & i & Hc' & _ & _ & _ & Hcol & _).
    rewrite Hc in Hc'. injection Hc' as <-.
    rewrite Hnone in Hcol. discriminate Hcol.
Qed.

Lemma color_resolution_cases_witness :
  stroke (mkColors (Some PyNone) (Some (PySeq [0.5]))) = Some PyNone /\
  fill (mkColors (Some PyNone) (Some (PySeq [0.5]))) = Some (PySeq [0.5]) /\
  resolve_color (mkColors (Some PyNone) (Some (PySeq [0.5]))) = PySeq [0.5].
Proof.
  split; [reflexivity|]. split; [reflexivity|].
  exact (proj1 (proj2 (color_resolution_cases
                         (mkColors (Some PyNone) (Some (PySeq [0.5])))))
           (or_intror eq_refl) _ eq_refl).
Defined.

End Normalizer.

(** ** The document extractor *)

Section Extraction.

Import Extractor.

Variable path_name : string -> string.
Variable path_absolute : string -> string.
Variable utc_now : string.

Lemma annot_step_contribution (page : Page) (page_num : Z) (annot : Annot)
    (highlights : list Highlight) :
  annot_step page page_num annot highlights =
  highlights ++ contribution (page_num, page, annot).
Proof.
  unfold annot_step, contribution.
  destruct (annot_type annot) as [ty|e]; [|rewrite app_nil_r; reflexivity].
  destruct (ty =? 8)%Z; [|rewrite app_nil_r; reflexivity].
  destruct (_extract_highlight_data page annot page_num);
    [reflexivity|rewrite app_nil_r; reflexivity].
Qed.

Lemma annots_loop_contributions (page : Page) (page_num : Z) (it : AnnotIter) :
  forall highlights,
    annots_loop page page_num it highlights =
    highlights ++
    flat_map contribution
      (map (fun annot => (page_num, page, annot)) (iter_annots it)).
Proof.
  induction it as [|annot rest IH|e]; intros highlights;
    cbn [annots_loop iter_annots map flat_map].
  - rewrite app_nil_r. reflexivity.
  - rewrite IH, annot_step_contribution, <- app_assoc. reflexivity.
  - rewrite app_nil_r. reflexivity.
Qed.

Lemma extract_page_highlights_contributions (page : Page) (page_num : Z) :
  _extract_page_highlights page page_num =
  flat_map contribution
    (map (fun annot => (page_num, page, annot)) (page_annots page)).
Proof.
  unfold _extract_page_highlights, page_annots.
  destruct (annots page) as [[it|]|e]; try reflexivity.
  apply annots_loop_contributions.
Qed.

(** The loop over the page indices loads the pages one after the other:
    it raises what the first page that does not load raises, and
    otherwise adds the contributions of the annotations of the pages. *)
Lemma pages_loop_seq (d : Document) (k : nat) :
  forall start highlights,
    pages_loop d (seq start k) highlights =
    (pages <- mapM (load_page d) (seq start k) ;;
     Ret (highlights ++
          flat_map contribution (doc_annots pages (Z.of_nat start)))).
Proof.
  induction k as [|k IH]; intros start highlights;
    cbn [seq pages_loop mapM].
  - cbn [bind doc_annots flat_map]. rewrite app_nil_r. reflexivity.
  - destruct (load_page d start) as [page|e]; cbn [bind]; [|reflexivity].
    rewrite IH.
    destruct (mapM (load_page d) (seq (S start) k)) as [pages|e];
      cbn [bind]; [|reflexivity].
    cbn [doc_annots].
    rewrite flat_map_app, extract_page_highlights_contributions,
      <- app_assoc, Nat2Z.inj_succ.
    reflexivity.
Qed.


(** A result comes from an open document with at least one page, all of
    whose pages loaded. *)
Lemma extract_highlights_inv (self : HighlightExtractor)
    (result : ExtractionResult) :
  extract_highlights path_name path_absolute utc_now self = Ret result ->
  exists d n pages,
    doc self = Some d /\ page_count d = Ret n /\ n <> 0%nat /\
    loaded_pages d n = Ret pages /\
    highlights result = flat_map contribution (doc_annots pages 0) /\
    total_highlights result = Z.of_nat (List.length (highlights result)) /\
    total_pages result = Z.of_nat n.
Proof.
  unfold extract_highlights, loaded_pages.
  destruct (doc self) as [d|]; [|discriminate].
  destruct (page_count d) as [n|e] eqn:Hn; cbn [bind]; [|discriminate].
  destruct n as [|n]; cbn [Nat.eqb]; [discriminate|].
  rewrite pages_loop_seq.
  destruct (mapM (load_page d) (seq 0 (S n))) as [pages|e] eqn:Hl;
    cbn [bind]; [|discriminate].
  intros H. injection H as <-.
  exists d, (S n), pages.
  cbn [highlights total_highlights total_pages app Z.of_nat].
  split; [reflexivity|]. split; [exact Hn|]. split; [discriminate|].
  split; [exact Hl|]. split; [reflexivity|]. split; reflexivity.
Qed.


Lemma doc_annots_In (pages : list Page) :
  forall page_num x,
    In x (doc_annots pages page_num) ->
    exists page, In page pages /\ In (snd x) (page_annots page) /\
                 snd (fst x) = page /\ (page_num < fst (fst x))%Z.
Proof.
  induction pages as [|page rest IH]; intros page_num x;
    cbn [doc_annots]; [intros []|].
  rewrite in_app_iff, in_map_iff. intros [(annot & <- & Ha)|H].
  - exists page. cbn [fst snd].
    split; [left; reflexivity|]. split; [exact Ha|].
    split; [reflexivity|lia].
  - destruct (IH _ _ H) as (page' & Hp & Ha & Hx & Hn).
    exists page'. split; [right; exact Hp|]. split; [exact Ha|].
    split; [exact Hx|lia].
Qed.

Lemma contribution_inv (x : Z * Page * Annot) (h : Highlight) :
  In h (contribution x) ->
  _extract_highlight_data (snd (fst x)) (snd x) (fst (fst x)) = Some h.
Proof.
  destruct x as [[page_num page] annot]. unfold contribution. cbn [fst snd].
  destruct (annot_type annot) as [ty|e]; [|intros []].
  destruct (ty =? 8)%Z; [|intros []].
  destruct (_extract_highlight_data page annot page_num) as [h'|];
    [|intros []].
  intros [<-|[]]. reflexivity.
Qed.

(** C1, as stated, fails on the range of the color: a stroke color with
    a component above 1.0 is passed through to the record. *)
Lemma overdriven_color_kept :
  Sample.run Sample.extractor_overdriven
  = Ret (Sample.result_of [Sample.h_overdriven]) /\
  In Sample.h_overdriven
    (highlights (Sample.result_of [Sample.h_overdriven])) /\
  h_color Sample.h_overdriven = [2.0; 0.5; 0.0]%float /\
  in_unit 2.0%float = false.
Proof.
  split; [vm_compute; reflexivity|].
  split; [left; reflexivity|].
  split; reflexivity.
Qed.

(** C1 (amended): every highlight record in the result of an extraction
    run has a text that is non-empty and already trimmed, a color of
    exactly 3 components, and the color name the classifier gives for
    that color; the color is the one resolved from an annotation of the
    document, not clamped, so that its components are in [0.0, 1.0]
    whenever the stroke and fill components of that annotation are. *)
Theorem highlight_invariant (self : HighlightExtractor)
    (result : ExtractionResult) (h : Highlight) :
  extract_highlights path_name path_absolute utc_now self = Ret result ->
  In h (highlights result) ->
  h_text h <> "" /\
  PyStr.strip (h_text h) = h_text h /\
  List.length (h_color h) = 3%nat /\
  Utils.rgb_to_color_name (h_color h) = Ret (h_color_name h) /\
  exists d page_num page annot c,
    doc self = Some d /\ load_page d page_num = Ret page /\
    In annot (page_annots page) /\ colors annot = Ret c /\
    three_components (resolve_color c) = Ret (h_color h) /\
    (colors_in_unit c = true -> forallb in_unit (h_color h) = true).
Proof.
  intros Hrun Hin.
  destruct (extract_highlights_inv self result Hrun)
    as (d & n & pages & Hdoc & _ & _ & Hl & Hhs & _).
  rewrite Hhs in Hin. apply in_flat_map in Hin.
  destruct Hin as (x & Hx & Hh).
  apply contribution_inv in Hh.
  destruct (doc_annots_In _ _ _ Hx) as (page & Hpage & Hannot & Hxp & _).
  destruct (mapM_In _ _ _ _ Hl Hpage) as (page_num & _ & Hload).
  rewrite Hxp in Hh.
  destruct (extract_highlight_data_inv _ _ _ _ Hh)
    as (c & r & i & Hc & _ & _ & Htext & Hcol & Hname & Heq).
  assert (Ht : h_text h = PyStr.strip (_get_highlight_text page (snd x))).
  { rewrite Heq. reflexivity. }
  split; [rewrite Ht; exact Htext|].
  split; [rewrite Ht; apply strip_idempotent|].
  split; [exact (three_components_length _ _ Hcol)|].
  split; [exact Hname|].
  exists d, page_num, page, (snd x), c. repeat split; auto.
  intros Hu. apply (three_components_in_unit _ _ Hcol).
  apply resolve_color_in_unit. exact Hu.
Qed.









End Extraction.

Section ExtractionSamples.

Import Extractor.

Lemma highlight_invariant_witness :
  Sample.run Sample.extractor_two
  = Ret (Sample.result_of [Sample.h_yellow; Sample.h_red]) /\
  In Sample.h_yellow
    (highlights (Sample.result_of [Sample.h_yellow; Sample.h_red])) /\
  List.length (h_color Sample.h_yellow) = 3%nat /\
  Utils.rgb_to_color_name (h_color Sample.h_yellow)
  = Ret (h_color_name Sample.h_yellow).
Proof.
  assert (Hrun : Sample.run Sample.extractor_two
                 = Ret (Sample.result_of [Sample.h_yellow; Sample.h_red]))
    by (vm_compute; reflexivity).
  assert (Hin : In Sample.h_yellow
                  (highlights
                     (Sample.result_of [Sample.h_yellow; Sample.h_red])))
    by (left; reflexivity).
  split; [exact Hrun|]. split; [exact Hin|].
  pose proof (highlight_invariant _ _ _ Sample.extractor_two _
                Sample.h_yellow Hrun Hin) as H.
  split; [exact (proj1 (proj2 (proj2 H)))|].
  exact (proj1 (proj2 (proj2 (proj2 H)))).
Defined.


End ExtractionSamples.

Section PageOrder.

Import Extractor.

Lemma StronglySorted_app {A : Type} (R : A -> A -> Prop) (l1 l2 : list A) :
  StronglySorted R l1 -> StronglySorted R l2 ->
  (forall a b, In a l1 -> In b l2 -> R a b) ->
  StronglySorted R (l1 ++ l2).
Proof.
  induction 1 as [|a l1 Hs IH Ha]; intros H2 H12; cbn [app]; [assumption|].
  constructor.
  - apply IH; [assumption|]. intros x y Hx Hy. apply H12; [right|]; assumption.
  - apply Forall_app. split; [assumption|].
    apply Forall_forall. intros y Hy. apply H12; [left; reflexivity|assumption].
Qed.

Lemma contribution_page (x : Z * Page * Annot) (h : Highlight) :
  In h (contribution x) -> h_page h = fst (fst x).
Proof.
  intros H. apply contribution_inv, extract_highlight_data_inv in H.
  destruct H as (c & r & i & _ & _ & _ & _ & _ & _ & ->). reflexivity.
Qed.

Lemma contribution_pages (x : Z * Page * Annot) :
  Forall (fun p => p = fst (fst x)) (map h_page (contribution x)).
Proof.
  apply Forall_forall. intros p Hp. apply in_map_iff in Hp.
  destruct Hp as (h & <- & Hh). apply contribution_page. assumption.
Qed.

Lemma constant_sorted (c : Z) (l : list Z) :
  (forall q, In q l -> q = c) -> StronglySorted Z.le l.
Proof.
  induction l as [|p l IH]; intros H; constructor.
  - apply IH. intros q Hq. apply H. right. assumption.
  - apply Forall_forall. intros q Hq.
    rewrite (H p (or_introl eq_refl)), (H q (or_intror Hq)). lia.
Qed.

Lemma doc_pages_in_order (pages : list Page) :
  forall page_num,
    StronglySorted Z.le
      (map h_page (flat_map contribution (doc_annots pages page_num))) /\
    Forall (fun p => (page_num < p)%Z)
      (map h_page (flat_map contribution (doc_annots pages page_num))).
Proof.
  induction pages as [|page rest IH]; intros page_num;
    cbn [doc_annots flat_map map].
  - split; constructor.
  - rewrite flat_map_app, map_app.
    destruct (IH (page_num + 1)%Z) as [Hs Hlt].
    assert (Hhere : Forall (fun p => p = (page_num + 1)%Z)
                      (map h_page
                         (flat_map contribution
                            (map (fun annot => ((page_num + 1)%Z, page, annot))
                               (page_annots page))))).
    { induction (page_annots page) as [|a l IHl]; cbn [map flat_map];
        [constructor|]. rewrite map_app. apply Forall_app. split; [|exact IHl].
      apply (contribution_pages ((page_num + 1)%Z, page, a)). }
    rewrite Forall_forall in Hhere, Hlt. split.
    + apply StronglySorted_app; [|exact Hs|].
      * apply (constant_sorted (page_num + 1)%Z). exact Hhere.
      * intros a b Ha Hb. apply Hhere in Ha. apply Hlt in Hb. lia.
    + apply Forall_app. split; apply Forall_forall; intros p Hp.
      * apply Hhere in Hp. lia.
      * apply Hlt in Hp. lia.
Qed.

(** The highlights of an extraction run are in page order. *)
Lemma extraction_in_page_order (path_name path_absolute : string -> string)
    (utc_now : string) (self : HighlightExtractor)
    (result : ExtractionResult) :
  extract_highlights path_name path_absolute utc_now self = Ret result ->
  in_page_order (highlights result).
Proof.
  intros Hrun.
  destruct (extract_highlights_inv path_name path_absolute utc_now
              self result Hrun) as (d & n & pages & _ & _ & _ & _ & Hhs & _).
  unfold in_page_order. rewrite Hhs. apply doc_pages_in_order.
Qed.

End PageOrder.
